(** * stellar_sdk: transaction codec, signature base and amount codec

    A shallow embedding of the parts of [stellar_sdk] that build, sign and
    serialize transactions:

    - [operation/operation.py]: the amount codec of [Operation]
      ([to_xdr_amount], [from_xdr_amount]) over a model of Python's
      [decimal] arithmetic, and the XDR conversion of operations;
    - [transaction.py]: [Transaction] and its XDR conversions and equality;
    - [transaction_envelope.py]: [TransactionEnvelope], its signature base
      and XDR conversions;
    - [server.py]: the enumeration of memo-required destinations and the
      memo-required check;
    - [exceptions.py]: the exception classes.

    Python exceptions are values of [exn]; a call that may raise returns a
    [result]. *)

From Stdlib Require Import ZArith NArith List String Ascii Bool Lia.
From Stdlib.Strings Require Import Byte.
From stdpp Require Import base option gmap strings list.

Local Open Scope Z_scope.
#[local] Set Warnings "-register-all,-clear-no-such-hyp,-level-tolerance".

(** ** Python exceptions and fallible computations *)

Module Py.

(** The exception classes that the modelled code raises or lets escape.
    [SdkValueError] and [SdkTypeError] are the classes of [exceptions.py];
    the [Decimal*] ones are the signals of the [decimal] module. *)
Inductive exn : Type :=
| NameError (name : string)
| AttributeError (attr : string)
| BuiltinTypeError (msg : string)
| BuiltinValueError (msg : string)
| OverflowError (msg : string)
| NotImplementedError (msg : string)
| DecimalInvalidOperation
| DecimalDivisionByZero
| DecimalInexact
| DecimalOverflow
| SdkValueError (msg : string)
| SdkTypeError (msg : string)
| SignatureExistError (msg : string)
| MissingEd25519SecretSeedError (msg : string)
| OtherError (cls : string).

Inductive result (A : Type) : Type :=
| Ok (a : A)
| Raise (e : exn).
Arguments Ok {A} a.
Arguments Raise {A} e.

Definition bind {A B} (m : result A) (k : A -> result B) : result B :=
  match m with
  | Ok a => k a
  | Raise e => Raise e
  end.

(** [try: m except cls: h], where [catches e] says that [e] is an
    instance of [cls]. *)
Definition try_except {A} (m : result A) (catches : exn -> bool)
    (h : exn -> result A) : result A :=
  match m with
  | Ok a => Ok a
  | Raise e => if catches e then h e else Raise e
  end.

Fixpoint mapM {A B} (f : A -> result B) (l : list A) : result (list B) :=
  match l with
  | [] => Ok []
  | x :: l' =>
      bind (f x) (fun y => bind (mapM f l') (fun ys => Ok (y :: ys)))
  end.

Definition is_Ok {A} (m : result A) : bool :=
  match m with Ok _ => true | Raise _ => false end.

End Py.

Export Py.

Declare Scope py_scope.
Delimit Scope py_scope with py.
Notation "'let*' x ':=' m 'in' k" := (Py.bind m (fun x => k))
  (at level 10, x name, m at level 100, k at level 200) : py_scope.
Local Open Scope py_scope.

(** A name looked up at module level, where the module binds the names
    [bound]: a name that is neither bound there nor a built-in raises
    NameError.  (The names looked up below are no built-ins.) *)
Definition lookup_name (bound : list string) (name : string) : result unit :=
  if existsb (String.eqb name) bound then Ok tt else Raise (NameError name).

(** ** Python's [decimal] module, as far as the amount codec uses it

    A [Decimal] is a sign, a coefficient and an exponent, or one of the
    special values.  The coefficient is kept as a number; the string
    [_int] of the Python implementation is its decimal numeral, so
    [len(self._int)] is [ndigits].  Strings are sequences of characters
    with code points below 256. *)

Module Dec.

Inductive decimal : Type :=
| Finite (sign : bool) (coeff : N) (exp : Z)
| Infinity (sign : bool)
| NaN (sign : bool) (signaling : bool) (diag : N).

(** *** Numerals *)

(** The digits of [n], least significant first, at most [fuel] of them. *)
Fixpoint digits_rev (fuel : nat) (n : N) : list N :=
  match fuel with
  | O => []
  | S f =>
      if (n <? 10)%N then [n]
      else (n mod 10)%N :: digits_rev f (n / 10)%N
  end.

(** [str(n)] as a list of digit values, most significant first. *)
Definition digits (n : N) : list N :=
  rev (digits_rev (S (N.to_nat (N.size n))) n).

(** [int(s)] for a string of digits given by their values. *)
Definition value (ds : list N) : N :=
  fold_left (fun acc d => (10 * acc + d)%N) ds 0%N.

Definition ndigits (n : N) : Z := Z.of_nat (length (digits n)).

Definition digit_char (d : N) : ascii := ascii_of_N (48 + d).
Definition is_digit (c : ascii) : bool :=
  let n := N_of_ascii c in ((48 <=? n) && (n <=? 57))%N.
Definition digit_val (c : ascii) : N := (N_of_ascii c - 48)%N.

Definition numeral (n : N) : list ascii := map digit_char (digits n).
Definition int_of_digits (cs : list ascii) : N := value (map digit_val cs).

(** ["%+d" % z] *)
Definition signed_numeral (z : Z) : list ascii :=
  (if z <? 0 then "-"%char else "+"%char) :: numeral (Z.abs_N z).

(** *** The default context and [Context(traps=[Inexact])] *)

Definition prec : Z := 28.
Definition Emax : Z := 999999.
Definition Emin : Z := -999999.
Definition Etiny : Z := Emin - prec + 1.
Definition Etop : Z := Emax - prec + 1.

Definition pow10 (k : Z) : N := (10 ^ Z.to_N k)%N.

(** Dropping the last [k] digits of [c] under ROUND_HALF_EVEN: the
    kept digits, whether they are to be incremented, and whether any
    non-zero digit was discarded. *)
Definition round_half_even (c : N) (k : Z) : N * bool * bool :=
  let p := pow10 k in
  let q := (c / p)%N in
  let r := (c mod p)%N in
  let up :=
    match (2 * r ?= p)%N with
    | Gt => true
    | Eq => N.odd q
    | Lt => false
    end in
  (q, up, negb (r =? 0)%N).

(** [Decimal._fix] on a finite number in the default context: rounds to
    [prec] digits, raises [Overflow] (trapped) above [Emax], lets
    underflow pass. *)
Definition fix_finite (s : bool) (c : N) (e : Z) : result decimal :=
  if (c =? 0)%N then
    Ok (Finite s 0 (Z.min (Z.max e Etiny) Emax))
  else
    let exp_min := ndigits c + e - prec in
    if Etop <? exp_min then Raise DecimalOverflow
    else
      let exp_min := Z.max exp_min Etiny in
      if e <? exp_min then
        let digs := ndigits c + e - exp_min in
        let '(coeff, up, _) :=
          if digs <? 0 then round_half_even 1 1
          else round_half_even c (exp_min - e) in
        let '(coeff, exp_min) :=
          if up then
            if prec <? ndigits (coeff + 1)
            then (((coeff + 1) / 10)%N, exp_min + 1)
            else ((coeff + 1)%N, exp_min)
          else (coeff, exp_min) in
        if Etop <? exp_min then Raise DecimalOverflow
        else Ok (Finite s coeff exp_min)
      else Ok (Finite s c e).

Definition fix_nan (s sig : bool) (diag : N) : decimal :=
  NaN s sig (diag mod pow10 prec)%N.

Definition is_zero (d : decimal) : bool :=
  match d with Finite _ c _ => (c =? 0)%N | _ => false end.

(** [_check_nans] of a binary operation in the default context, where
    InvalidOperation is trapped: [Some] when a NaN decides the result. *)
Definition check_nans (a b : decimal) : option (result decimal) :=
  match a, b with
  | NaN _ true _, _ => Some (Raise DecimalInvalidOperation)
  | _, NaN _ true _ => Some (Raise DecimalInvalidOperation)
  | NaN s sig diag, _ => Some (Ok (fix_nan s sig diag))
  | _, NaN s sig diag => Some (Ok (fix_nan s sig diag))
  | _, _ => None
  end.

Definition sign_of (d : decimal) : bool :=
  match d with Finite s _ _ | Infinity s | NaN s _ _ => s end.

(** [Decimal.__mul__] in the default context. *)
Definition mul (a b : decimal) : result decimal :=
  let rs := xorb (sign_of a) (sign_of b) in
  match check_nans a b with
  | Some r => r
  | None =>
      match a, b with
      | Finite _ ca ea, Finite _ cb eb => fix_finite rs (ca * cb) (ea + eb)
      | Infinity _, _ =>
          if is_zero b then Raise DecimalInvalidOperation
          else Ok (Infinity rs)
      | _, _ =>
          if is_zero a then Raise DecimalInvalidOperation
          else Ok (Infinity rs)
      end
  end.

(** The loop of [__truediv__] that brings an exact quotient as close to
    the ideal exponent as it can: at most [fuel] steps. *)
Fixpoint strip_zeros (fuel : nat) (coeff : N) (exp ideal : Z) : N * Z :=
  match fuel with
  | O => (coeff, exp)
  | S f =>
      if (exp <? ideal) && (coeff mod 10 =? 0)%N
      then strip_zeros f (coeff / 10)%N (exp + 1) ideal
      else (coeff, exp)
  end.

(** [Decimal.__truediv__] in the default context. *)
Definition truediv (a b : decimal) : result decimal :=
  let rs := xorb (sign_of a) (sign_of b) in
  match check_nans a b with
  | Some r => r
  | None =>
      match a, b with
      | Infinity _, Infinity _ => Raise DecimalInvalidOperation
      | Infinity _, _ => Ok (Infinity rs)
      | _, Infinity _ => Ok (Finite rs 0 Etiny)
      | Finite _ ca ea, Finite _ cb eb =>
          if (cb =? 0)%N then
            if (ca =? 0)%N then Raise DecimalInvalidOperation
            else Raise DecimalDivisionByZero
          else if (ca =? 0)%N then fix_finite rs 0 (ea - eb)
          else
            let shift := ndigits cb - ndigits ca + prec + 1 in
            let exp := ea - eb - shift in
            let '(num, den) :=
              if 0 <=? shift then ((ca * pow10 shift)%N, cb)
              else (ca, (cb * pow10 (- shift))%N) in
            let coeff := (num / den)%N in
            let remainder := (num mod den)%N in
            let '(coeff, exp) :=
              if negb (remainder =? 0)%N then
                ((if (coeff mod 5 =? 0)%N then coeff + 1 else coeff)%N, exp)
              else
                strip_zeros (Z.to_nat (ea - eb - exp)) coeff exp (ea - eb) in
            fix_finite rs coeff exp
      | _, _ => Raise DecimalInvalidOperation
      end
  end.

(** [Decimal.to_integral_exact(context=Context(traps=[Inexact]))]: the
    rounded value differs from the operand exactly when a non-zero digit
    is discarded, and then the trapped Inexact signal is raised. *)
Definition to_integral_exact (d : decimal) : result decimal :=
  match d with
  | NaN s _ diag => Ok (fix_nan s false diag)
  | Infinity _ => Ok d
  | Finite s c e =>
      if 0 <=? e then Ok d
      else if (c =? 0)%N then Ok (Finite s 0 0)
      else
        let '(coeff, up, changed) :=
          if ndigits c + e <? 0 then round_half_even 1 1
          else round_half_even c (- e) in
        if changed then Raise DecimalInexact
        else Ok (Finite s (if up then coeff + 1 else coeff)%N 0)
  end.

(** [int(d)] *)
Definition to_int (d : decimal) : result Z :=
  match d with
  | NaN _ _ _ => Raise (BuiltinValueError "cannot convert NaN to integer")
  | Infinity _ =>
      Raise (OverflowError "cannot convert Infinity to integer")
  | Finite s c e =>
      let m := if 0 <=? e then (c * pow10 e)%N else (c / pow10 (- e))%N in
      Ok (if s then - Z.of_N m else Z.of_N m)
  end.

(** [Decimal(n)] for an [int]. *)
Definition of_int (z : Z) : decimal := Finite (z <? 0) (Z.abs_N z) 0.

(** *** [Decimal(str)] *)

Fixpoint span {A} (p : A -> bool) (l : list A) : list A * list A :=
  match l with
  | [] => ([], [])
  | x :: l' =>
      if p x then let '(a, b) := span p l' in (x :: a, b) else ([], l)
  end.

Fixpoint lstrip (p : ascii -> bool) (l : list ascii) : list ascii :=
  match l with
  | [] => []
  | x :: l' => if p x then lstrip p l' else l
  end.

(** The characters [str.strip()] removes, among code points below 256. *)
Definition is_space (c : ascii) : bool :=
  let n := N_of_ascii c in
  (((9 <=? n) && (n <=? 13)) || ((28 <=? n) && (n <=? 32))
   || (n =? 133) || (n =? 160))%N.

Definition strip (l : list ascii) : list ascii :=
  rev (lstrip is_space (rev (lstrip is_space l))).

Definition is_underscore (c : ascii) : bool := (N_of_ascii c =? 95)%N.

Definition remove_underscores (l : list ascii) : list ascii :=
  List.filter (fun c => negb (is_underscore c)) l.

Definition lower (c : ascii) : ascii :=
  let n := N_of_ascii c in
  if ((65 <=? n) && (n <=? 90))%N then ascii_of_N (n + 32) else c.

(** Case-insensitive match of the lower-case literal [lit] at the head
    of [cs]: the rest of [cs]. *)
Fixpoint match_ci (lit cs : list ascii) : option (list ascii) :=
  match lit, cs with
  | [], _ => Some cs
  | a :: lit', c :: cs' =>
      if Ascii.eqb a (lower c) then match_ci lit' cs' else None
  | _ :: _, [] => None
  end.

Definition chars (s : string) : list ascii := list_ascii_of_string s.

(** The lookahead [(?=\d|\.\d)] of the number pattern. *)
Definition starts_number (cs : list ascii) : bool :=
  match cs with
  | c :: r =>
      is_digit c
      || (Ascii.eqb c "."%char
          && match r with c' :: _ => is_digit c' | [] => false end)
  | [] => false
  end.

Definition split_sign (cs : list ascii) : bool * list ascii :=
  match cs with
  | c :: r =>
      if Ascii.eqb c "-"%char then (true, r)
      else if Ascii.eqb c "+"%char then (false, r)
      else (false, cs)
  | [] => (false, cs)
  end.

(** The groups [int], [frac] and [exp] of the number pattern. *)
Definition parse_number (cs : list ascii)
    : option (list ascii * list ascii * Z) :=
  if starts_number cs then
    let '(ip, r1) := span is_digit cs in
    let '(fp, r2) :=
      match r1 with
      | c :: r => if Ascii.eqb c "."%char then span is_digit r else ([], r1)
      | [] => ([], r1)
      end in
    match r2 with
    | [] => Some (ip, fp, 0)
    | c :: r =>
        if Ascii.eqb (lower c) "e"%char then
          let '(neg, r') := split_sign r in
          let '(ds, rest) := span is_digit r' in
          match ds, rest with
          | _ :: _, [] =>
              let e := Z.of_N (int_of_digits ds) in
              Some (ip, fp, if neg then - e else e)
          | _, _ => None
          end
        else None
    end
  else None.

Definition parse_infinity (cs : list ascii) : bool :=
  match match_ci (chars "inf") cs with
  | Some [] => true
  | Some r =>
      match match_ci (chars "inity") r with Some [] => true | _ => false end
  | None => false
  end.

(** The groups [signal] and [diag] of the NaN pattern. *)
Definition parse_nan (cs : list ascii) : option (bool * N) :=
  let '(sig, r) :=
    match match_ci (chars "s") cs with
    | Some r => (true, r)
    | None => (false, cs)
    end in
  match match_ci (chars "nan") r with
  | Some d =>
      match span is_digit d with
      | (ds, []) => Some (sig, int_of_digits ds)
      | _ => None
      end
  | None => None
  end.

(** The limits of the conversion from a string, which is exact: the
    exponent is at least [MIN_ETINY] and the adjusted exponent (for zero,
    the exponent) at most [MAX_EMAX]; a string outside them is refused
    like a malformed one. *)
Definition MAX_EMAX : Z := 999999999999999999.
Definition MIN_ETINY : Z := -1999999999999999997.

Definition representable (c : N) (e : Z) : bool :=
  (MIN_ETINY <=? e)
  && (if (c =? 0)%N then e <=? MAX_EMAX else e + ndigits c - 1 <=? MAX_EMAX).

Definition of_string (s : string) : result decimal :=
  let cs := remove_underscores (strip (chars s)) in
  let '(sign, body) := split_sign cs in
  match parse_number body with
  | Some (ip, fp, e) =>
      let c := int_of_digits (ip ++ fp) in
      let e := e - Z.of_nat (length fp) in
      if representable c e then Ok (Finite sign c e)
      else Raise DecimalInvalidOperation
  | None =>
      if parse_infinity body then Ok (Infinity sign)
      else
        match parse_nan body with
        | Some (sig, diag) => Ok (NaN sign sig diag)
        | None => Raise DecimalInvalidOperation
        end
  end.

(** *** [str(d)] *)

Definition zeros (k : Z) : list ascii := repeat "0"%char (Z.to_nat k).

Definition to_chars (d : decimal) : list ascii :=
  let sg := if sign_of d then chars "-" else [] in
  match d with
  | Infinity _ => sg ++ chars "Infinity"
  | NaN _ sig diag =>
      sg ++ chars (if sig then "sNaN" else "NaN")
         ++ (if (diag =? 0)%N then [] else numeral diag)
  | Finite _ c e =>
      let int_ := numeral c in
      let len := Z.of_nat (length int_) in
      let leftdigits := e + len in
      let dotplace :=
        if (e <=? 0) && (-6 <? leftdigits) then leftdigits else 1 in
      let '(intpart, fracpart) :=
        if dotplace <=? 0 then
          (chars "0", chars "." ++ zeros (- dotplace) ++ int_)
        else if len <=? dotplace then
          (int_ ++ zeros (dotplace - len), [])
        else
          (firstn (Z.to_nat dotplace) int_,
           chars "." ++ skipn (Z.to_nat dotplace) int_) in
      let exp :=
        if leftdigits =? dotplace then []
        else chars "E" ++ signed_numeral (leftdigits - dotplace) in
      sg ++ intpart ++ fracpart ++ exp
  end.

Definition to_string (d : decimal) : string :=
  string_of_list_ascii (to_chars d).

End Dec.

(** ** XDR objects

    The package [stellar_sdk.xdr] is not part of the sources at hand;
    [transaction.py] and [transaction_envelope.py] import it under the
    name [stellarxdr].  (They also write [Xdr], a name that neither
    binds: see [lookup_name].)  Its objects are modelled as Python
    objects are: a class name and a bag of attributes, read by name.  What
    the package itself computes (its constructors, packers and constants)
    is the interface [Lib] below. *)

Module Xdr.

Definition bytes : Type := list Byte.byte.

#[global] Instance byte_eq_dec : EqDecision Byte.byte := Byte.byte_eq_dec.

Inductive obj : Type :=
| ONone
| OInt (z : Z)
| OBytes (b : bytes)
| OStr (s : string)
| OList (l : list obj)
| OInst (cls : string) (attrs : list (string * obj)).

Fixpoint lookup_attr (name : string) (attrs : list (string * obj))
    : option obj :=
  match attrs with
  | [] => None
  | (n, v) :: rest =>
      if String.eqb n name then Some v else lookup_attr name rest
  end.

(** [o.name] *)
Definition getattr (name : string) (o : obj) : result obj :=
  match o with
  | OInst _ attrs =>
      match lookup_attr name attrs with
      | Some v => Ok v
      | None => Raise (AttributeError name)
      end
  | _ => Raise (AttributeError name)
  end.

(** [iter(o)] *)
Definition iter (o : obj) : result (list obj) :=
  match o with
  | OList l => Ok l
  | OBytes b => Ok (map (fun x => OInt (Z.of_N (Byte.to_N x))) b)
  | OStr s =>
      Ok (map (fun c => OStr (String c EmptyString)) (list_ascii_of_string s))
  | _ => Raise (BuiltinTypeError "object is not iterable")
  end.

Definition bytes_eqb (a b : bytes) : bool :=
  bool_decide (a = b).

(** [a == b]: integers, byte strings, strings and lists by value, XDR
    objects by class and attributes. *)
Fixpoint py_eq (a b : obj) : bool :=
  match a, b with
  | ONone, ONone => true
  | OInt x, OInt y => x =? y
  | OBytes x, OBytes y => bytes_eqb x y
  | OStr x, OStr y => String.eqb x y
  | OList x, OList y =>
      (fix go (x y : list obj) : bool :=
         match x, y with
         | [], [] => true
         | a :: x', b :: y' => py_eq a b && go x' y'
         | _, _ => false
         end) x y
  | OInst c1 f1, OInst c2 f2 =>
      String.eqb c1 c2 &&
      (fix go (x y : list (string * obj)) : bool :=
         match x, y with
         | [], [] => true
         | (n, a) :: x', (m, b) :: y' =>
             String.eqb n m && py_eq a b && go x' y'
         | _, _ => false
         end) f1 f2
  | _, _ => false
  end.

End Xdr.

Export Xdr.

(** ** Value objects of the SDK

    Modelled from the spec: [muxed_account.py], [keypair.py], [memo.py] and
    [time_bounds.py] are not among the sources; the classes are the value
    objects of the data model (section 3), compared field by field. *)

Record MuxedAccount : Type := {
  account_id : string;
  account_id_id : option Z;
}.

Record Keypair : Type := {
  public_key : string;
  raw_public_key : bytes;
  secret_seed : option bytes;
}.

Inductive Memo : Type :=
| NoneMemo
| TextMemo (text : bytes)
| IdMemo (id : Z)
| HashMemo (hash : bytes)
| ReturnHashMemo (hash : bytes).

Record TimeBounds : Type := {
  min_time : Z;
  max_time : Z;
}.

#[global] Instance MuxedAccount_eq_dec : EqDecision MuxedAccount.
Proof. solve_decision. Defined.
#[global] Instance Memo_eq_dec : EqDecision Memo.
Proof. solve_decision. Defined.
#[global] Instance TimeBounds_eq_dec : EqDecision TimeBounds.
Proof. solve_decision. Defined.

(** The argument of [Keypair.from_public_key] at its call sites. *)
Inductive public_key_arg : Type :=
| KeyStr (s : string)
| KeyMuxed (m : MuxedAccount).

(** ** The collaborators that are not among the sources

    What the modelled functions call in [xdr], [keypair.py], [strkey.py],
    [muxed_account.py], [memo.py], [time_bounds.py], [network.py] and
    [base64]: each may raise. *)

Class Lib : Type := {
  (** the constants [ENVELOPE_TYPE_TX_V0] and [ENVELOPE_TYPE_TX] of the
      package *)
  ENVELOPE_TYPE_TX_V0 : Z;
  ENVELOPE_TYPE_TX : Z;
  (** a constructor of the XDR package: class, positional arguments,
      keyword arguments *)
  xdr_new : string -> list obj -> list (string * obj) -> result obj;
  (** [StellarXDRPacker().pack_EnvelopeType(t)] then [get_buffer()] *)
  pack_EnvelopeType : Z -> result bytes;
  (** [StellarXDRPacker().pack_Transaction(x)] then [get_buffer()] *)
  pack_Transaction : obj -> result bytes;
  (** [x.to_xdr()] of an XDR object: the base64 string *)
  xdr_to_xdr : obj -> result string;
  (** [base64.b64decode(s.encode())] *)
  b64decode : string -> result bytes;
  (** [stellarxdr.TransactionEnvelope.unpack(Unpacker(data))] *)
  unpack_TransactionEnvelope : bytes -> result obj;
  (** [Network(passphrase).network_id()] *)
  network_id_of : string -> bytes;
  Keypair_from_public_key : public_key_arg -> result Keypair;
  Keypair_xdr_account_id : Keypair -> result obj;
  StrKey_encode_ed25519_public_key : obj -> result string;
  MuxedAccount_from_xdr_object : obj -> result MuxedAccount;
  MuxedAccount_from_account : string -> result MuxedAccount;
  Memo_to_xdr_object : Memo -> result obj;
  Memo_from_xdr_object : obj -> result Memo;
  TimeBounds_to_xdr_object : TimeBounds -> result obj;
  TimeBounds_from_xdr_object : obj -> result TimeBounds;
}.

(** ** [operation/operation.py] *)

Module Operation.

Import Dec.

(** An operation: an instance of one of the subclasses of [Operation].
    The subclasses are not among the sources; an instance is given by
    its identity [id(op)], its class, the [type_code()] of that class,
    the [source] attribute of the base class, the [destination] attribute
    of the classes that have one, and what its [_to_operation_body()]
    returns.  Two records with the same identity stand for the same
    object. *)
Record t : Type := {
  op_id : Z;
  op_class : string;
  op_type_code : Z;
  source : option MuxedAccount;
  destination : option MuxedAccount;
  _to_operation_body : result obj;
}.

(** An element of [Operation.__subclasses__()]. *)
Record subclass : Type := {
  cls_name : string;
  type_code : Z;
  cls_from_xdr_object : obj -> result t;
}.

(** [Operation._ONE = Decimal(10 ** 7)] *)
Definition _ONE : decimal := of_int (10 ^ 7).

(** The argument of [to_xdr_amount]: a [str], a [Decimal], or an object
    of any other type. *)
Inductive amount_arg : Type :=
| ArgStr (s : string)
| ArgDecimal (d : decimal)
| ArgOther.

(** [Decimal(value)] *)
Definition Decimal (value : amount_arg) : result decimal :=
  match value with
  | ArgStr s => of_string s
  | ArgDecimal d => Ok d
  | ArgOther => Raise (BuiltinTypeError "conversion to Decimal")
  end.

(** [decimal.Overflow] derives from [decimal.Inexact]. *)
Definition isinstance_Inexact (e : exn) : bool :=
  match e with
  | DecimalInexact | DecimalOverflow => true
  | _ => false
  end.

Definition INT64_MAX : Z := 9223372036854775807.

Definition to_xdr_amount (value : amount_arg) : result Z :=
  match value with
  | ArgOther => Raise (SdkTypeError "Value must be of type str or Decimal")
  | _ =>
      let* amount :=
        try_except
          (let* d := Decimal value in
           let* p := mul d _ONE in
           let* r := to_integral_exact p in
           to_int r)
          isinstance_Inexact
          (fun _ => Raise (SdkValueError
             "Value must have at most 7 digits after the decimal.")) in
      if (amount <? 0) || (INT64_MAX <? amount) then
        Raise (SdkValueError
          "Value must represent a positive number and the max valid value is 922337203685.4775807.")
      else Ok amount
  end.

Definition from_xdr_amount (value : Z) : result string :=
  let* q := truediv (of_int value) _ONE in
  Ok (to_string q).

Section WithLib.
Context {L : Lib}.

Definition to_xdr_object (self : t) : result obj :=
  let* source_account :=
    match source self with
    | Some m =>
        let* kp := Keypair_from_public_key (KeyMuxed m) in
        Keypair_xdr_account_id kp
    | None => Ok ONone
    end in
  let* body := _to_operation_body self in
  xdr_new "Operation" [source_account; body] [].

(** The loop over [cls.__subclasses__()]. *)
Fixpoint dispatch (subs : list subclass) (operation_xdr_object : obj)
    : result t :=
  match subs with
  | [] =>
      let* body := getattr "body" operation_xdr_object in
      let* ty := getattr "type" body in
      Raise (NotImplementedError "Operation is not implemented.")
  | sub_cls :: rest =>
      let* body := getattr "body" operation_xdr_object in
      let* ty := getattr "type" body in
      if py_eq (OInt (type_code sub_cls)) ty
      then cls_from_xdr_object sub_cls operation_xdr_object
      else dispatch rest operation_xdr_object
  end.

Definition from_xdr_object (subclasses : list subclass)
    (operation_xdr_object : obj) : result t :=
  dispatch subclasses operation_xdr_object.

(** [self == other] for two distinct operation objects; instances of
    unrelated classes are unequal. *)
Definition __eq__ (self other : t) : result bool :=
  if String.eqb (op_class self) (op_class other) then
    let* a := to_xdr_object self in
    let* b := to_xdr_object other in
    Ok (py_eq a b)
  else Ok false.

End WithLib.

End Operation.

(** ** Decimal strings, for the statements about the amount codec *)

(** The string with integer part [ip] and fractional part [fp]: [ip], or
    [ip.fp] when there are fractional digits. *)
Definition plain_chars (ip fp : list ascii) : list ascii :=
  ip ++ match fp with [] => [] | _ :: _ => "."%char :: fp end.

Definition plain (ip fp : list ascii) : string :=
  string_of_list_ascii (plain_chars ip fp).

(** The amount, in units of [10^-7], that [ip.fp] denotes when [fp] has
    at most 7 digits. *)
Definition scaled (ip fp : list ascii) : N :=
  (Dec.int_of_digits (ip ++ fp) * 10 ^ N.of_nat (7 - length fp))%N.

(** [ip.fp] is a decimal string with at most 7 fractional digits whose
    value lies between 0 and 922337203685.4775807. *)
Definition is_amount (ip fp : list ascii) : bool :=
  match ip with [] => false | _ :: _ => true end
  && forallb Dec.is_digit ip && forallb Dec.is_digit fp
  && (length fp <=? 7)%nat
  && (scaled ip fp <=? Z.to_N Operation.INT64_MAX)%N.

Definition is_zero_char (c : ascii) : bool := Ascii.eqb c "0"%char.

(** No redundant zeros: the integer part is ["0"] or does not start with
    a zero, and the fractional part does not end with one. *)
Definition is_canonical (ip fp : list ascii) : bool :=
  match ip with
  | [] => false
  | [c] => true
  | c :: _ => negb (is_zero_char c)
  end
  && match rev fp with
     | [] => true
     | c :: _ => negb (is_zero_char c)
     end.

(** [from_xdr_amount(to_xdr_amount(s))] *)
Definition amount_roundtrip (s : string) : result string :=
  let* n := Operation.to_xdr_amount (Operation.ArgStr s) in
  Operation.from_xdr_amount n.

(** ** [transaction.py] *)

Module Transaction.

Record t : Type := {
  source : MuxedAccount;
  sequence : obj;
  fee : obj;
  operations : list Operation.t;
  memo : Memo;
  time_bounds : option TimeBounds;
  v1 : bool;
}.

(** The names that [transaction.py] binds at module level: its imports
    and its class.  The XDR package is imported as [stellarxdr]. *)
Definition module_names : list string :=
  ["List"; "Union"; "Keypair"; "NoneMemo"; "Memo"; "MuxedAccount";
   "Operation"; "StrKey"; "TimeBounds"; "stellarxdr"; "__all__";
   "Transaction"]%string.

(** [tx.v1 = b] *)
Definition set_v1 (b : bool) (tx : t) : t :=
  {| source := source tx; sequence := sequence tx; fee := fee tx;
     operations := operations tx; memo := memo tx;
     time_bounds := time_bounds tx; v1 := b |}.

(** The [source] argument of the constructor. *)
Inductive source_arg : Type :=
| SourceKeypair (k : Keypair)
| SourceMuxed (m : MuxedAccount)
| SourceStr (s : string).

(** [a is b or a == b], the comparison of two list elements. *)
Definition item_eq {L : Lib} (a b : Operation.t) : result bool :=
  if Operation.op_id a =? Operation.op_id b then Ok true
  else Operation.__eq__ a b.

(** The search of [l1 == l2] for the first pair of unequal elements;
    when one list runs out, the sizes decide. *)
Fixpoint items_eq {L : Lib} (l1 l2 : list Operation.t) : result bool :=
  match l1, l2 with
  | [], [] => Ok true
  | a :: l1', b :: l2' =>
      let* e := item_eq a b in
      if e then items_eq l1' l2' else Ok false
  | _, _ => Ok false
  end.

(** [l1 == l2] for two lists of operations: lists of different lengths
    are unequal without comparing elements; otherwise the elements are
    compared in order up to the first unequal pair, and two elements
    that are the same object count as equal without a call of
    [__eq__]. *)
Definition operations_eq {L : Lib} (l1 l2 : list Operation.t)
    : result bool :=
  if (length l1 =? length l2)%nat then items_eq l1 l2 else Ok false.

(** Two operations that a list comparison takes for equal: the same
    object, or two objects of one class with the same XDR encoding. *)
Definition same_operation {L : Lib} (a b : Operation.t) : Prop :=
  Operation.op_id a = Operation.op_id b \/
  (Operation.op_class a = Operation.op_class b /\
   exists x, Operation.to_xdr_object a = Ok x /\
             Operation.to_xdr_object b = Ok x).

Section WithLib.
Context {L : Lib}.

Definition __init__ (source : source_arg) (sequence fee : obj)
    (operations : list Operation.t) (memo : option Memo)
    (time_bounds : option TimeBounds) (v1 : bool) : result t :=
  let memo := match memo with None => NoneMemo | Some m => m end in
  let* source :=
    match source with
    | SourceKeypair k =>
        Ok {| account_id := public_key k; account_id_id := None |}
    | SourceStr s => MuxedAccount_from_account s
    | SourceMuxed m => Ok m
    end in
  Ok {| source := source; sequence := sequence; operations := operations;
        memo := memo; fee := fee; time_bounds := time_bounds; v1 := v1 |}.

(** In the [v1] branch the first argument of [stellarxdr.Transaction]
    is the name [source_account], which nothing in the function or the
    module binds.  The other branch calls [Xdr.types.TransactionV0],
    and the module binds no name [Xdr]. *)
Definition to_xdr_object (self : t) : result obj :=
  let* memo := Memo_to_xdr_object (memo self) in
  let* operations := mapM Operation.to_xdr_object (operations self) in
  let* time_bounds :=
    match time_bounds self with
    | Some tb => TimeBounds_to_xdr_object tb
    | None => Ok ONone
    end in
  let* ext := xdr_new "TransactionExt" [OInt 0] [] in
  if v1 self then
    Raise (NameError "source_account")
  else
    let* kp :=
      Keypair_from_public_key (KeyStr (account_id (source self))) in
    let* acc := Keypair_xdr_account_id kp in
    let* source_xdr := getattr "ed25519" acc in
    let* _ := lookup_name module_names "Xdr" in
    xdr_new "TransactionV0"
      [source_xdr; fee self; sequence self; time_bounds; memo;
       OList operations; ext] [].

(** The value first bound to [source] is discarded by the assignment
    that follows it. *)
Definition from_xdr_object (subclasses : list Operation.subclass)
    (tx_xdr_object : obj) (v1 : bool) : result t :=
  let* _ :=
    if v1 then
      let* a := getattr "sourceAccount" tx_xdr_object in
      let* m := MuxedAccount_from_xdr_object a in
      Ok tt
    else
      let* a := getattr "sourceAccountEd25519" tx_xdr_object in
      let* s := StrKey_encode_ed25519_public_key a in
      Ok tt in
  let* a := getattr "source_account" tx_xdr_object in
  let* a := getattr "account_id" a in
  let* a := getattr "ed25519" a in
  let* a := getattr "uint256" a in
  let* s := StrKey_encode_ed25519_public_key a in
  let* source := Keypair_from_public_key (KeyStr s) in
  let* a := getattr "seq_num" tx_xdr_object in
  let* a := getattr "sequence_number" a in
  let* sequence := getattr "int64" a in
  let* a := getattr "fee" tx_xdr_object in
  let* fee := getattr "uint32" a in
  let* time_bounds_xdr := getattr "time_bounds" tx_xdr_object in
  let* time_bounds :=
    match time_bounds_xdr with
    | ONone => Ok None
    | _ =>
        let* tb := TimeBounds_from_xdr_object time_bounds_xdr in
        Ok (Some tb)
    end in
  let* a := getattr "memo" tx_xdr_object in
  let* memo := Memo_from_xdr_object a in
  let* a := getattr "operations" tx_xdr_object in
  let* xs := iter a in
  let* operations := mapM (Operation.from_xdr_object subclasses) xs in
  __init__ (SourceKeypair source) sequence fee operations (Some memo)
    time_bounds v1.

(** [x and y], where [y] is evaluated only when [x] is true. *)
Definition and_then (x : bool) (y : result bool) : result bool :=
  if x then y else Ok false.

Definition __eq__ (self other : t) : result bool :=
  and_then (bool_decide (source self = source other))
    (and_then (py_eq (sequence self) (sequence other))
      (and_then (py_eq (fee self) (fee other))
        (let* ops := operations_eq (operations self) (operations other) in
         and_then ops
           (and_then (bool_decide (memo self = memo other))
              (Ok (bool_decide (time_bounds self = time_bounds other))))))).

End WithLib.

End Transaction.

(** ** The store of transaction objects

    A [Transaction] is a mutable object and an envelope refers to one:
    the transactions live in a store, an envelope holds a location. *)

Module Store.

Definition loc : Type := positive.

Abbreviation heap := (gmap positive Transaction.t).

(** Computations that read and update the store and may raise. *)
Definition M (A : Type) : Type := heap -> result A * heap.

Definition ret {A} (a : A) : M A := fun h => (Ok a, h).
Definition raise {A} (e : exn) : M A := fun h => (Raise e, h).
Definition lift {A} (r : result A) : M A := fun h => (r, h).
Definition bindM {A B} (m : M A) (k : A -> M B) : M B :=
  fun h =>
    match m h with
    | (Ok a, h') => k a h'
    | (Raise e, h') => (Raise e, h')
    end.

(** The object at [l]; every location held by a running program is in
    the store. *)
Definition read (l : loc) : M Transaction.t :=
  fun h =>
    match h !! l with
    | Some tx => (Ok tx, h)
    | None => (Raise (OtherError "ReferenceError"), h)
    end.

(** A new object. *)
Definition new (tx : Transaction.t) : M loc :=
  fun h => let l := fresh (dom h) in (Ok l, <[l := tx]> h).

(** [tx.v1 = b] for the object at [l]. *)
Definition store_v1 (l : loc) (b : bool) : M unit :=
  fun h =>
    match h !! l with
    | Some tx => (Ok tt, <[l := Transaction.set_v1 b tx]> h)
    | None => (Raise (OtherError "ReferenceError"), h)
    end.

End Store.

Export Store.

Notation "'do*' x ':=' m 'in' k" := (Store.bindM m (fun x => k))
  (at level 10, x name, m at level 100, k at level 200) : py_scope.

(** ** [transaction_envelope.py] *)

Module TransactionEnvelope.

(** The names that [transaction_envelope.py] binds at module level: its
    imports and its class.  The XDR package is imported as
    [stellarxdr]; the code refers to it as [Xdr], a name that the module
    does not bind. *)
Definition module_names : list string :=
  ["List"; "base64"; "Union"; "Packer"; "Unpacker"; "SignatureExistError";
   "Keypair"; "Network"; "BaseTransactionEnvelope"; "Transaction";
   "sha256"; "hex_to_bytes"; "stellarxdr"; "__all__";
   "TransactionEnvelope"]%string.

Record t : Type := {
  transaction : loc;
  network_id : bytes;
  signatures : obj;
}.

Section WithLib.
Context {L : Lib} (subclasses : list Operation.subclass).

(** Modelled from the spec: [BaseTransactionEnvelope.__init__] of
    [base_transaction_envelope.py], which is not among the sources,
    derives the network id from the passphrase and starts from the
    given signature list, or from an empty one. *)
Definition __init__ (transaction : loc) (network_passphrase : string)
    (signatures : option obj) : t :=
  {| transaction := transaction;
     network_id := network_id_of network_passphrase;
     signatures :=
       match signatures with
       | Some ONone | None => OList []
       | Some l => l
       end |}.

(** [Transaction.from_xdr_object] returns a new object. *)
Definition Transaction_from_xdr_object (x : obj) (v1 : bool) : M loc :=
  do* tx := lift (Transaction.from_xdr_object subclasses x v1) in
  new tx.

(** The name [Xdr], looked up among the names of the module. *)
Definition lookup_Xdr : M unit := lift (lookup_name module_names "Xdr").

Definition signature_base (self : t) : M bytes :=
  let network_id := network_id self in
  (* tx_type = Xdr.StellarXDRPacker(), tx_packer = Xdr.StellarXDRPacker() *)
  do* _ := lookup_Xdr in
  do* _ := lookup_Xdr in
  let tx := transaction self in
  do* stored := read (transaction self) in
  do* tx :=
    if negb (Transaction.v1 stored) then
      do* x := lift (Transaction.to_xdr_object stored) in
      do* tx := Transaction_from_xdr_object x false in
      do* _ := store_v1 tx true in
      ret tx
    else ret tx in
  do* _ := lookup_Xdr in
  do* tx_type_buffer := lift (pack_EnvelopeType ENVELOPE_TYPE_TX) in
  do* obj := read tx in
  do* x := lift (Transaction.to_xdr_object obj) in
  do* tx_buffer := lift (pack_Transaction x) in
  ret (network_id ++ tx_type_buffer ++ tx_buffer).

Definition to_xdr_object (self : t) : M obj :=
  do* stored := read (transaction self) in
  do* tx := lift (Transaction.to_xdr_object stored) in
  do* stored := read (transaction self) in
  if Transaction.v1 stored then
    do* _ := lookup_Xdr in
    let te_type := ENVELOPE_TYPE_TX in
    do* _ := lookup_Xdr in
    do* tx_envelope :=
      lift (xdr_new "TransactionV1Envelope" [tx; signatures self] []) in
    do* _ := lookup_Xdr in
    lift (xdr_new "TransactionEnvelope" []
            [("type"%string, OInt te_type); ("v1"%string, tx_envelope)])
  else
    do* _ := lookup_Xdr in
    let te_type := ENVELOPE_TYPE_TX_V0 in
    do* _ := lookup_Xdr in
    do* tx_envelope :=
      lift (xdr_new "TransactionV0Envelope" [tx; signatures self] []) in
    do* _ := lookup_Xdr in
    lift (xdr_new "TransactionEnvelope" []
            [("type"%string, OInt te_type); ("v0"%string, tx_envelope)]).

Definition to_xdr (self : t) : M string :=
  do* x := to_xdr_object self in
  lift (xdr_to_xdr x).

Definition from_xdr_object (te_xdr_object : obj)
    (network_passphrase : string) : M t :=
  do* te_type := lift (getattr "type" te_xdr_object) in
  do* _ := lookup_Xdr in
  do* decoded :=
    if py_eq te_type (OInt ENVELOPE_TYPE_TX_V0) then
      do* v0 := lift (getattr "v0" te_xdr_object) in
      do* tx := Transaction_from_xdr_object v0 false in
      do* v0 := lift (getattr "v0" te_xdr_object) in
      do* signatures := lift (getattr "signatures" v0) in
      ret (tx, signatures)
    else
      do* _ := lookup_Xdr in
      if py_eq te_type (OInt ENVELOPE_TYPE_TX) then
        do* v1 := lift (getattr "v1" te_xdr_object) in
        do* tx := Transaction_from_xdr_object v1 true in
        do* v1 := lift (getattr "v1" te_xdr_object) in
        do* signatures := lift (getattr "signatures" v1) in
        ret (tx, signatures)
      else
        (* the message reads [te_xdr_object.type] again *)
        do* _ := lift (getattr "type" te_xdr_object) in
        raise (BuiltinValueError "Invalid EnvelopeType: %d.") in
  ret (__init__ (fst decoded) network_passphrase (Some (snd decoded))).


End WithLib.

End TransactionEnvelope.


(** ** Signing

    Modelled from the spec: [sign] is defined in
    [base_transaction_envelope.py] and the key pair in [keypair.py], which
    are not among the sources.  Following section 4.6, [sign] hashes the
    signature base, builds [DecoratedSignature(hint, signature)] and
    appends it, unless the list already holds a signature with that hint.
    The signature base is the one of [transaction_envelope.py]; SHA-256
    and the Ed25519 primitive are parameters. *)

Module BaseTransactionEnvelope.

Section Sign.
Context {L : Lib} (subclasses : list Operation.subclass).
Context (sha256 : bytes -> bytes).
Context (ed25519_sign : bytes -> bytes -> bytes).

(** The hint: the last 4 bytes of the raw public key. *)
Definition signature_hint (kp : Keypair) : bytes :=
  skipn (length (raw_public_key kp) - 4) (raw_public_key kp).

Definition Keypair_sign (kp : Keypair) (data : bytes) : result bytes :=
  match secret_seed kp with
  | Some seed => Ok (ed25519_sign seed data)
  | None =>
      Raise (MissingEd25519SecretSeedError
               "The keypair does not contain secret seed to sign.")
  end.

Definition DecoratedSignature (hint signature : bytes) : obj :=
  OInst "DecoratedSignature"
    [("hint"%string, OBytes hint); ("signature"%string, OBytes signature)].

Definition sign_decorated (kp : Keypair) (data : bytes) : result obj :=
  let* signature := Keypair_sign kp data in
  Ok (DecoratedSignature (signature_hint kp) signature).

(** Whether one of [sigs] carries the hint [hint]. *)
Fixpoint has_hint (hint : bytes) (sigs : list obj) : result bool :=
  match sigs with
  | [] => Ok false
  | s :: rest =>
      let* h := getattr "hint" s in
      if py_eq h (OBytes hint) then Ok true else has_hint hint rest
  end.

Definition as_list (o : obj) : result (list obj) :=
  match o with
  | OList l => Ok l
  | _ => Raise (AttributeError "append")
  end.

(** [SHA-256(signature_base())] *)
Definition hash (self : TransactionEnvelope.t) : M bytes :=
  do* base := TransactionEnvelope.signature_base subclasses self in
  ret (sha256 base).

(** The envelope after [sign]: the signature list is the one object that
    [sign] changes. *)
Definition sign (signer : Keypair) (self : TransactionEnvelope.t)
    : M TransactionEnvelope.t :=
  do* tx_hash := hash self in
  do* sig := lift (sign_decorated signer tx_hash) in
  do* sigs := lift (as_list (TransactionEnvelope.signatures self)) in
  do* present := lift (has_hint (signature_hint signer) sigs) in
  if present then
    raise (SignatureExistError "The keypair has already signed.")
  else
    ret {| TransactionEnvelope.transaction :=
             TransactionEnvelope.transaction self;
           TransactionEnvelope.network_id :=
             TransactionEnvelope.network_id self;
           TransactionEnvelope.signatures := OList (sigs ++ [sig]) |}.

End Sign.

End BaseTransactionEnvelope.

(** ** [exceptions.py] *)

Module Exceptions.

(** The classes of the module, and the built-in classes they derive
    from. *)
Inductive cls : Type :=
| PyException
| PyValueError
| PyTypeError
| SdkError
| ValueError
| TypeError
| BadSignatureError
| Ed25519PublicKeyInvalidError
| Ed25519SecretSeedInvalidError
| MissingEd25519SecretSeedError
| MemoInvalidException
| AssetCodeInvalidError
| AssetIssuerInvalidError
| NoApproximationError
| SignatureExistError
| BaseRequestError
| ConnectionError
| BaseHorizonError
| NotFoundError
| BadRequestError
| BadResponseError
| UnknownRequestError.

#[global] Instance cls_eq_dec : EqDecision cls.
Proof. solve_decision. Defined.

(** [c.__bases__], as the class statements give them. *)
Definition bases (c : cls) : list cls :=
  match c with
  | PyException => []
  | PyValueError | PyTypeError => [PyException]
  | SdkError => [PyException]
  | ValueError => [PyValueError; SdkError]
  | TypeError => [PyTypeError; SdkError]
  | BadSignatureError | Ed25519PublicKeyInvalidError
  | Ed25519SecretSeedInvalidError | MissingEd25519SecretSeedError
  | MemoInvalidException | AssetCodeInvalidError | AssetIssuerInvalidError
  | SignatureExistError => [ValueError]
  | NoApproximationError => [SdkError]
  | BaseRequestError => [SdkError]
  | ConnectionError | BaseHorizonError => [BaseRequestError]
  | NotFoundError | BadRequestError | BadResponseError
  | UnknownRequestError => [BaseHorizonError]
  end.

(** The search of [issubclass(c, d)] through the bases, to depth
    [fuel]. *)
Fixpoint issubclass_upto (fuel : nat) (c d : cls) : bool :=
  bool_decide (c = d)
  || match fuel with
     | O => false
     | S f => existsb (fun b => issubclass_upto f b d) (bases c)
     end.

(** [issubclass(c, d)]: no class of the module is more than four steps
    away from the root. *)
Definition issubclass (c d : cls) : bool := issubclass_upto 4 c d.

(** The classes that the module itself defines. *)
Definition defined_here (c : cls) : bool :=
  match c with
  | PyException | PyValueError | PyTypeError => false
  | _ => true
  end.

End Exceptions.

(** ** [server.py]: the destinations of the memo-required check *)

Module Server.

Section OperationType.
(** [OperationType.PAYMENT.value] and the like: constants of the XDR
    package. *)
Context (PAYMENT ACCOUNT_MERGE : Z).
Context (PATH_PAYMENT_STRICT_RECEIVE PATH_PAYMENT_STRICT_SEND : Z).

Definition memo_required_operation_code : list Z :=
  [PAYMENT; ACCOUNT_MERGE; PATH_PAYMENT_STRICT_RECEIVE;
   PATH_PAYMENT_STRICT_SEND].

(** The body of the generator, from position [index] on, with the set
    [destinations] of the ids seen so far: the pairs it yields, and the
    exception that ends it, if any. *)
Fixpoint loop (index : nat) (ops : list Operation.t)
    (destinations : gset string) : list (nat * string) * option exn :=
  match ops with
  | [] => ([], None)
  | operation :: rest =>
      if bool_decide
           (Operation.op_type_code operation ∈ memo_required_operation_code)
      then
        match Operation.destination operation with
        | None => ([], Some (AttributeError "destination"))
        | Some d =>
            let destination := account_id d in
            if bool_decide (destination ∈ destinations) then
              loop (S index) rest destinations
            else
              let '(ys, e) :=
                loop (S index) rest ({[destination]} ∪ destinations) in
              ((index, destination) :: ys, e)
        end
      else loop (S index) rest destinations
  end.

Definition __get_check_memo_required_destinations
    (transaction : Transaction.t) : list (nat * string) * option exn :=
  loop 0 (Transaction.operations transaction) ∅.

(** The operation is of one of the four kinds. *)
Definition memo_required (op : Operation.t) : Prop :=
  Operation.op_type_code op = PAYMENT
  \/ Operation.op_type_code op = ACCOUNT_MERGE
  \/ Operation.op_type_code op = PATH_PAYMENT_STRICT_RECEIVE
  \/ Operation.op_type_code op = PATH_PAYMENT_STRICT_SEND.

(** The operation is of one of the four kinds and its destination has
    the account id [d]. *)
Definition pays_to (op : Operation.t) (d : string) : Prop :=
  memo_required op /\
  exists m, Operation.destination op = Some m /\ account_id m = d.

(** Operations of the four kinds carry a destination. *)
Definition has_destination (op : Operation.t) : Prop :=
  memo_required op -> is_Some (Operation.destination op).

(** *** The memo-required check

    The JSON document of an account response; numbers are integers. *)
Inductive json : Type :=
| JNull
| JBool (b : bool)
| JNum (z : Z)
| JStr (s : string)
| JList (l : list json)
| JDict (d : list (string * json)).

(** [d.get(key)] for the members [d] of a JSON object. *)
Fixpoint dict_get (key : string) (d : list (string * json)) : option json :=
  match d with
  | [] => None
  | (k, v) :: rest => if String.eqb k key then Some v else dict_get key rest
  end.

(** What [self.accounts().account_id(destination).call()] does: it
    returns a response with the given [raw_data], or raises an instance
    of the class [c] (an instance of a class outside [exceptions.py]
    counts as one of its built-in base). *)
Inductive call_result : Type :=
| Response (raw_data : json)
| CallRaises (c : Exceptions.cls).

(** How the check ends: it returns, or raises
    [AccountRequiresMemoError(message, destination, index)] (a class of
    [sep/exceptions.py]), or lets an exception of the client or another
    exception escape. *)
Inductive outcome : Type :=
| Passed
| AccountRequiresMemoError (destination : string) (index : nat)
| Propagates (c : Exceptions.cls)
| Fails (e : exn).

Definition __check_destination_memo (account_resp : json) (index : nat)
    (destination : string) : outcome :=
  let memo_required_config_key := "config.memo_required"%string in
  let memo_required_config_value := "MQ=="%string in
  match account_resp with
  | JDict members =>
      match dict_get "data" members with
      | None => Fails (OtherError "KeyError")
      | Some (JDict data) =>
          match dict_get memo_required_config_key data with
          | Some (JStr v) =>
              if String.eqb v memo_required_config_value
              then AccountRequiresMemoError destination index
              else Passed
          | _ => Passed
          end
      | Some _ => Fails (AttributeError "get")
      end
  | _ => Fails (BuiltinTypeError "indices must be integers")
  end.

Section Check.
(** [MUXED_ACCOUNT_STARTING_LETTER] of [utils.py], and the server. *)
Context (MUXED_ACCOUNT_STARTING_LETTER : string).
Context (call : string -> call_result).

(** The body of the [for] loop of [__check_memo_required_sync] over the
    pairs that the generator yields. *)
Fixpoint check_destinations (yielded : list (nat * string)) : outcome :=
  match yielded with
  | [] => Passed
  | (index, destination) :: rest =>
      if String.prefix MUXED_ACCOUNT_STARTING_LETTER destination then
        check_destinations rest
      else
        match call destination with
        | CallRaises c =>
            if Exceptions.issubclass c Exceptions.NotFoundError
            then check_destinations rest
            else Propagates c
        | Response raw_data =>
            match __check_destination_memo raw_data index destination with
            | Passed => check_destinations rest
            | o => o
            end
        end
  end.

(** The generator runs as far as the loop asks it to: an exception of
    the generator is met after the pairs yielded before it have been
    checked. *)
Definition __check_memo_required_sync (transaction : Transaction.t)
    : outcome :=
  match Transaction.memo transaction with
  | NoneMemo =>
      let '(yielded, e) :=
        __get_check_memo_required_destinations transaction in
      match check_destinations yielded with
      | Passed =>
          match e with
          | Some e => Fails e
          | None => Passed
          end
      | o => o
      end
  | _ => Passed
  end.

(** The account [d] is looked up and its data asks for a memo. *)
Definition flagged (d : string) : Prop :=
  exists raw_data index,
    call d = Response raw_data /\
    __check_destination_memo raw_data index d
    = AccountRequiresMemoError d index.

End Check.

End OperationType.

End Server.


(** ** A sample of the collaborators

    An instance of [Lib], and sample data, on which the definitions can be
    run. *)

Module Sample.

Definition names : list string :=
  ["a0"; "a1"; "a2"; "a3"; "a4"; "a5"; "a6"; "a7"]%string.

(** A constructor of the XDR package: positional arguments are stored
    under the names [a0], [a1], ..., keyword arguments under their own. *)
Definition new_object (cls : string) (args : list obj)
    (kwargs : list (string * obj)) : result obj :=
  Ok (OInst cls (combine names args ++ kwargs)).

Definition string_bytes (s : string) : bytes :=
  map byte_of_ascii (list_ascii_of_string s).

Definition lib : Lib := {|
  ENVELOPE_TYPE_TX_V0 := 0;
  ENVELOPE_TYPE_TX := 2;
  xdr_new := new_object;
  pack_EnvelopeType z :=
    Ok [x00; x00; x00;
        match Byte.of_N (Z.to_N z) with Some b => b | None => x00 end];
  pack_Transaction _ := Ok [];
  xdr_to_xdr _ := Ok ""%string;
  b64decode _ := Ok [];
  unpack_TransactionEnvelope _ := Raise (OtherError "EOFError");
  network_id_of := string_bytes;
  Keypair_from_public_key arg :=
    match arg with
    | KeyStr s =>
        Ok {| public_key := s; raw_public_key := string_bytes s;
              secret_seed := None |}
    | KeyMuxed _ => Raise (BuiltinTypeError "a string is required")
    end;
  Keypair_xdr_account_id kp :=
    Ok (OInst "AccountID" [("ed25519"%string, OStr (public_key kp))]);
  StrKey_encode_ed25519_public_key o :=
    match o with
    | OStr s => Ok s
    | _ => Raise (BuiltinTypeError "bytes are required")
    end;
  MuxedAccount_from_xdr_object o :=
    match o with
    | OStr s => Ok {| account_id := s; account_id_id := None |}
    | _ => Raise (BuiltinTypeError "a MuxedAccount is required")
    end;
  MuxedAccount_from_account s :=
    Ok {| account_id := s; account_id_id := None |};
  Memo_to_xdr_object m :=
    match m with
    | NoneMemo => Ok (OInst "Memo" [("type"%string, OInt 0)])
    | IdMemo n =>
        Ok (OInst "Memo" [("type"%string, OInt 2); ("id"%string, OInt n)])
    | _ => Raise (OtherError "MemoInvalidException")
    end;
  Memo_from_xdr_object o :=
    match o with
    | OInst _ [(_, OInt 0)] => Ok NoneMemo
    | OInst _ [(_, OInt 2); (_, OInt n)] => Ok (IdMemo n)
    | _ => Raise (OtherError "MemoInvalidException")
    end;
  TimeBounds_to_xdr_object tb :=
    Ok (OInst "TimeBounds"
          [("min_time"%string, OInt (min_time tb));
           ("max_time"%string, OInt (max_time tb))]);
  TimeBounds_from_xdr_object o :=
    match o with
    | OInst _ [(_, OInt a); (_, OInt b)] =>
        Ok {| min_time := a; max_time := b |}
    | _ => Raise (BuiltinTypeError "a TimeBounds is required")
    end;
|}.

Definition account (s : string) : MuxedAccount :=
  {| account_id := s; account_id_id := None |}.

(** The operation object [id] of class [cls] with type code [code] that
    pays to [d]. *)
Definition operation_at (id : Z) (cls : string) (code : Z) (d : string)
    : Operation.t :=
  {| Operation.op_id := id;
     Operation.op_class := cls;
     Operation.op_type_code := code;
     Operation.source := None;
     Operation.destination := Some (account d);
     Operation._to_operation_body :=
       Ok (OInst "OperationBody" [("type"%string, OInt code)]) |}.

Definition tx_v0 : Transaction.t :=
  {| Transaction.source := account "GA";
     Transaction.sequence := OInt 100;
     Transaction.fee := OInt 100;
     Transaction.operations := [];
     Transaction.memo := NoneMemo;
     Transaction.time_bounds := None;
     Transaction.v1 := false |}.

Definition tx_v1 : Transaction.t := Transaction.set_v1 true tx_v0.

(** A transaction with two payments to the same account around an
    operation of another kind (CreateAccount) and an account merge. *)
Definition tx_payments : Transaction.t :=
  {| Transaction.source := account "GA";
     Transaction.sequence := OInt 100;
     Transaction.fee := OInt 400;
     Transaction.operations :=
       [operation_at 1 "Payment" 1 "GB"; operation_at 2 "CreateAccount" 0 "GC";
        operation_at 3 "Payment" 1 "GB"; operation_at 4 "AccountMerge" 8 "GD"];
     Transaction.memo := NoneMemo;
     Transaction.time_bounds := None;
     Transaction.v1 := false |}.

(** [tx_v0] with a muxed id on its source. *)
Definition tx_muxed : Transaction.t :=
  {| Transaction.source := {| account_id := "GA"; account_id_id := Some 5 |};
     Transaction.sequence := OInt 100;
     Transaction.fee := OInt 100;
     Transaction.operations := [];
     Transaction.memo := NoneMemo;
     Transaction.time_bounds := None;
     Transaction.v1 := false |}.

(** An XDR transaction whose two source fields name different accounts,
    and the transaction it decodes to. *)
Definition xdr_transaction : obj :=
  OInst "TransactionV0"
    [("sourceAccountEd25519"%string, OStr "GA");
     ("source_account"%string,
      OInst "MuxedAccount"
        [("account_id"%string,
          OInst "AccountID"
            [("ed25519"%string,
              OInst "Uint256" [("uint256"%string, OStr "GB")])])]);
     ("fee"%string, OInst "Uint32" [("uint32"%string, OInt 100)]);
     ("seq_num"%string,
      OInst "SequenceNumber"
        [("sequence_number"%string,
          OInst "Int64" [("int64"%string, OInt 7)])]);
     ("time_bounds"%string, ONone);
     ("memo"%string, OInst "Memo" [("type"%string, OInt 0)]);
     ("operations"%string, OList [])].

Definition tx_decoded : Transaction.t :=
  {| Transaction.source := account "GB";
     Transaction.sequence := OInt 7;
     Transaction.fee := OInt 100;
     Transaction.operations := [];
     Transaction.memo := NoneMemo;
     Transaction.time_bounds := None;
     Transaction.v1 := false |}.

Definition envelope : TransactionEnvelope.t :=
  {| TransactionEnvelope.transaction := 1%positive;
     TransactionEnvelope.network_id := string_bytes "Test SDF Network";
     TransactionEnvelope.signatures := OList [] |}.

Definition store_v0 : gmap positive Transaction.t := {[ 1%positive := tx_v0 ]}.
Definition store_v1 : gmap positive Transaction.t := {[ 1%positive := tx_v1 ]}.

(** An XDR envelope of type [ty] whose arms both hold the fields that
    [Transaction.from_xdr_object] reads, and an empty signature list. *)
Definition xdr_envelope (ty : Z) : obj :=
  let arm :=
    OInst "TransactionV0Envelope"
      [("sourceAccountEd25519"%string, OStr "GA");
       ("sourceAccount"%string, OStr "GA");
       ("source_account"%string,
        OInst "MuxedAccount"
          [("account_id"%string,
            OInst "AccountID"
              [("ed25519"%string,
                OInst "Uint256" [("uint256"%string, OStr "GA")])])]);
       ("fee"%string, OInst "Uint32" [("uint32"%string, OInt 100)]);
       ("seq_num"%string,
        OInst "SequenceNumber"
          [("sequence_number"%string,
            OInst "Int64" [("int64"%string, OInt 100)])]);
       ("time_bounds"%string, ONone);
       ("memo"%string, OInst "Memo" [("type"%string, OInt 0)]);
       ("operations"%string, OList []);
       ("signatures"%string, OList [])] in
  OInst "TransactionEnvelope"
    [("type"%string, OInt ty); ("v0"%string, arm); ("v1"%string, arm)].

Definition keypair : Keypair :=
  {| public_key := "GA"; raw_public_key := [x01; x02; x03; x04; x05];
     secret_seed := Some [x2a] |}.

(** An account response whose data entries are [data]. *)
Definition account_response (data : list (string * Server.json))
    : Server.json :=
  Server.JDict
    [("sequence"%string, Server.JStr "1");
     ("data"%string, Server.JDict data)].

(** A server that knows two accounts: ["GB"], and ["GD"], which asks for
    a memo. *)
Definition call (d : string) : Server.call_result :=
  if String.eqb d "GD" then
    Server.Response
      (account_response
         [("config.memo_required"%string, Server.JStr "MQ==")])
  else if String.eqb d "GB" then Server.Response (account_response [])
  else Server.CallRaises Exceptions.NotFoundError.

(** A server that knows ["GB"] only. *)
Definition call_unflagged (d : string) : Server.call_result :=
  if String.eqb d "GB" then Server.Response (account_response [])
  else Server.CallRaises Exceptions.NotFoundError.

(** A server that differs from [call] on ["GC"]. *)
Definition call_other (d : string) : Server.call_result :=
  if String.eqb d "GC" then Server.CallRaises Exceptions.ConnectionError
  else call d.

(** Stand-ins for SHA-256 and for Ed25519. *)
Definition sha256 (data : bytes) : bytes := firstn 32 data.
Definition ed25519_sign (seed data : bytes) : bytes := seed ++ data.

End Sample.

(** * Properties *)

(** ** The destinations of the memo-required check *)

Section ServerFacts.
Context (PAYMENT ACCOUNT_MERGE : Z).
Context (PATH_PAYMENT_STRICT_RECEIVE PATH_PAYMENT_STRICT_SEND : Z).

Let codes : list Z :=
  Server.memo_required_operation_code PAYMENT ACCOUNT_MERGE
    PATH_PAYMENT_STRICT_RECEIVE PATH_PAYMENT_STRICT_SEND.
Let loop := Server.loop PAYMENT ACCOUNT_MERGE
    PATH_PAYMENT_STRICT_RECEIVE PATH_PAYMENT_STRICT_SEND.
Local Abbreviation memo_required :=
  (Server.memo_required PAYMENT ACCOUNT_MERGE
     PATH_PAYMENT_STRICT_RECEIVE PATH_PAYMENT_STRICT_SEND).
Local Abbreviation pays_to :=
  (Server.pays_to PAYMENT ACCOUNT_MERGE
     PATH_PAYMENT_STRICT_RECEIVE PATH_PAYMENT_STRICT_SEND).
Local Abbreviation has_destination :=
  (Server.has_destination PAYMENT ACCOUNT_MERGE
     PATH_PAYMENT_STRICT_RECEIVE PATH_PAYMENT_STRICT_SEND).

Lemma memo_required_codes op :
  Operation.op_type_code op ∈ codes <-> memo_required op.
Proof.
  unfold codes, Server.memo_required_operation_code, Server.memo_required.
  rewrite !elem_of_cons, elem_of_nil. tauto.
Qed.

Lemma loop_spec ops : forall i D,
  Forall has_destination ops ->
  snd (loop i ops D) = None /\
  NoDup (map snd (fst (loop i ops D))) /\
  forall j d,
    (j, d) ∈ fst (loop i ops D) <->
    exists k op,
      j = (i + k)%nat /\ ops !! k = Some op /\ pays_to op d /\ (d ∉ D) /\
      forall k' op', (k' < k)%nat -> ops !! k' = Some op' -> ~ pays_to op' d.
Proof.
  induction ops as [|op rest IH]; intros i D Hwf; simpl.
  - split; [done|]. split; [constructor|].
    intros j d. split.
    + intros H. by apply elem_of_nil in H.
    + intros (k & op & _ & Hk & _). by rewrite lookup_nil in Hk.
  - apply Forall_cons in Hwf as [Hop Hwf].
    fold codes. fold loop.
    assert (Hshift : forall (D' : gset string) j d,
      (exists k op0, j = (S i + k)%nat /\ rest !! k = Some op0 /\
         pays_to op0 d /\ (d ∉ D') /\
         forall k' op', (k' < k)%nat -> rest !! k' = Some op' ->
                        ~ pays_to op' d) ->
      ~ pays_to op d ->
      exists k op0, j = (i + k)%nat /\ (op :: rest) !! k = Some op0 /\
         pays_to op0 d /\ (d ∉ D') /\
         forall k' op', (k' < k)%nat -> (op :: rest) !! k' = Some op' ->
                        ~ pays_to op' d).
    { intros D' j d (k & op0 & -> & Hk & Hp & HD & Hfirst) Hnp.
      exists (S k), op0. split_and!; [lia|done|done|done|].
      intros [|k'] op' Hlt Hl; simpl in Hl.
      - by inversion Hl; subst.
      - apply (Hfirst k'); [lia|done]. }
    case_bool_decide as Hc.
    + apply memo_required_codes in Hc.
      destruct (Hop Hc) as [m Hm]. rewrite Hm.
      case_bool_decide as Hseen.
      * destruct (IH (S i) D Hwf) as (He & Hnd & Hiff).
        split; [done|]. split; [done|].
        intros j d. rewrite Hiff. split.
        -- intros H. apply Hshift; [done|].
           destruct H as (k & op0 & _ & _ & _ & HD & _).
           intros [_ (m' & Hm' & <-)]. congruence.
        -- intros (k & op0 & -> & Hk & Hp & HD & Hfirst).
           destruct k as [|k]; simpl in Hk.
           ++ inversion Hk; subst op0. destruct Hp as [_ (m' & Hm' & <-)].
              congruence.
           ++ exists k, op0. split_and!; [lia|done|done|done|].
              intros k' op' Hlt Hl. apply (Hfirst (S k')); [lia|done].
      * destruct (IH (S i) ({[account_id m]} ∪ D) Hwf) as (He & Hnd & Hiff).
        destruct (loop (S i) rest ({[account_id m]} ∪ D)) as [ys e] eqn:Hl.
        simpl in *. split; [done|]. split.
        -- constructor; [|done].
           intros Hin. apply list_elem_of_In, in_map_iff in Hin.
           destruct Hin as ([j d] & Hd & Hin). simpl in Hd. subst d.
           apply list_elem_of_In, Hiff in Hin. destruct Hin as (k & op0 & _ & _ & _ & HD & _).
           set_solver.
        -- intros j d. rewrite elem_of_cons, Hiff. split.
           ++ intros [Heq | H].
              ** inversion Heq; subst j d. exists 0%nat, op.
                 split_and!; [lia|done|by split; [|exists m]|done|].
                 intros k' op' Hlt. lia.
              ** apply Hshift.
                 { destruct H as (k & op0 & ? & ? & ? & HD & ?).
                   exists k, op0. split_and!; try done. set_solver. }
                 destruct H as (k & op0 & _ & _ & _ & HD & _).
                 intros [_ (m' & Hm' & <-)]. set_solver.
           ++ intros (k & op0 & -> & Hk & Hp & HD & Hfirst).
              destruct k as [|k]; simpl in Hk.
              ** left. inversion Hk; subst op0.
                 destruct Hp as [_ (m' & Hm' & <-)].
                 f_equal; [lia|congruence].
              ** right. exists k, op0.
                 split_and!; [lia|done|done| |].
                 --- assert (~ pays_to op d) as Hnp.
                     { apply (Hfirst 0%nat); [lia|done]. }
                     assert (d <> account_id m).
                     { intros ->. apply Hnp. split; [done|by exists m]. }
                     set_solver.
                 --- intros k' op' Hlt Hl'.
                     apply (Hfirst (S k')); [lia|done].
    + destruct (IH (S i) D Hwf) as (He & Hnd & Hiff).
      split; [done|]. split; [done|].
      intros j d. rewrite Hiff. split.
      * intros H. apply Hshift; [done|].
        intros [Hmr _]. by apply memo_required_codes in Hmr.
      * intros (k & op0 & -> & Hk & Hp & HD & Hfirst).
        destruct k as [|k]; simpl in Hk.
        -- inversion Hk; subst op0. destruct Hp as [Hmr _].
           by apply memo_required_codes in Hmr.
        -- exists k, op0. split_and!; [lia|done|done|done|].
           intros k' op' Hlt Hl. apply (Hfirst (S k')); [lia|done].
Qed.

Lemma pays_to_dec op d : {pays_to op d} + {~ pays_to op d}.
Proof.
  unfold Server.pays_to, Server.memo_required.
  destruct (Operation.destination op) as [m|].
  - destruct (decide (account_id m = d)) as [Hd|Hd].
    + destruct (decide (Operation.op_type_code op = PAYMENT));
      [left; split; [tauto|by exists m]|].
      destruct (decide (Operation.op_type_code op = ACCOUNT_MERGE));
      [left; split; [tauto|by exists m]|].
      destruct (decide
        (Operation.op_type_code op = PATH_PAYMENT_STRICT_RECEIVE));
      [left; split; [tauto|by exists m]|].
      destruct (decide (Operation.op_type_code op = PATH_PAYMENT_STRICT_SEND));
      [left; split; [tauto|by exists m]|].
      right. tauto.
    + right. intros [_ (m' & Hm & <-)]. congruence.
  - right. intros [_ (m' & Hm & _)]. congruence.
Qed.

(** Among the operations that pay to [d] there is a first one. *)
Lemma first_payer (ops : list Operation.t) d :
  (exists op, op ∈ ops /\ pays_to op d) ->
  exists k op, ops !! k = Some op /\ pays_to op d /\
    forall k' op', (k' < k)%nat -> ops !! k' = Some op' -> ~ pays_to op' d.
Proof.
  induction ops as [|a rest IH]; intros (op & Hin & Hp).
  - by apply elem_of_nil in Hin.
  - destruct (pays_to_dec a d) as [Ha|Ha].
    + exists 0%nat, a. split_and!; [done|done|]. intros k' op' Hlt. lia.
    + apply elem_of_cons in Hin as [->|Hin]; [done|].
      destruct IH as (k & op0 & Hk & Hp0 & Hfirst); [by exists op|].
      exists (S k), op0. split_and!; [done|done|].
      intros [|k'] op' Hlt Hl; simpl in Hl.
      * by inversion Hl; subst.
      * apply (Hfirst k'); [lia|done].
Qed.

(** C8: the destination account ids that the memo-required check is given
    are exactly the destinations of the operations whose type code is
    Payment, AccountMerge, PathPaymentStrictReceive or
    PathPaymentStrictSend; an operation of another kind contributes none.
    (Operations of the four kinds carry a destination, so the enumeration
    ends without an exception.) *)
Theorem memo_required_destinations_exact (transaction : Transaction.t) :
  Forall has_destination (Transaction.operations transaction) ->
  let r := Server.__get_check_memo_required_destinations
             PAYMENT ACCOUNT_MERGE PATH_PAYMENT_STRICT_RECEIVE
             PATH_PAYMENT_STRICT_SEND transaction in
  snd r = None /\
  (forall d, d ∈ map snd (fst r) <->
     exists op, op ∈ Transaction.operations transaction /\ pays_to op d) /\
  (forall j d, (j, d) ∈ fst r ->
     exists op, Transaction.operations transaction !! j = Some op /\
                memo_required op).
Proof.
  intros Hwf r. subst r.
  unfold Server.__get_check_memo_required_destinations.
  destruct (loop_spec (Transaction.operations transaction) 0 ∅ Hwf)
    as (He & _ & Hiff).
  fold loop. split_and!; [done| |].
  - intros d. rewrite list_elem_of_In, in_map_iff. split.
    + intros ([j d'] & Hd & Hin). simpl in Hd. subst d'.
      apply list_elem_of_In, Hiff in Hin.
      destruct Hin as (k & op & _ & Hk & Hp & _).
      exists op. split; [|done]. by eapply list_elem_of_lookup_2.
    + intros Hex. apply first_payer in Hex as (k & op & Hk & Hp & Hfirst).
      exists (k, d). split; [done|]. apply list_elem_of_In, Hiff.
      exists k, op. split_and!; [done|done|done|set_solver|done].
  - intros j d Hin. apply Hiff in Hin.
    destruct Hin as (k & op & -> & Hk & Hp & _).
    exists op. split; [done|apply Hp].
Qed.

(** C10: the enumeration yields each distinct destination account id at
    most once, paired with the index of the first operation (of the four
    memo-required kinds) whose destination it is; an operation whose
    destination was already seen yields nothing. *)
Theorem memo_required_destinations_dedup (transaction : Transaction.t) :
  Forall has_destination (Transaction.operations transaction) ->
  let r := Server.__get_check_memo_required_destinations
             PAYMENT ACCOUNT_MERGE PATH_PAYMENT_STRICT_RECEIVE
             PATH_PAYMENT_STRICT_SEND transaction in
  NoDup (map snd (fst r)) /\
  forall j d,
    (j, d) ∈ fst r <->
    exists op,
      Transaction.operations transaction !! j = Some op /\ pays_to op d /\
      forall k op', (k < j)%nat ->
        Transaction.operations transaction !! k = Some op' ->
        ~ pays_to op' d.
Proof.
  intros Hwf r. subst r.
  unfold Server.__get_check_memo_required_destinations.
  destruct (loop_spec (Transaction.operations transaction) 0 ∅ Hwf)
    as (_ & Hnd & Hiff).
  fold loop. split; [done|].
  intros j d. rewrite Hiff. split.
  - intros (k & op & -> & Hk & Hp & _ & Hfirst). by exists op.
  - intros (op & Hk & Hp & Hfirst). exists j, op.
    split_and!; [done|done|done|set_solver|done].
Qed.

End ServerFacts.

(** ** Fallible computations *)

Lemma bind_Ok {A B} (m : result A) (k : A -> result B) b :
  Py.bind m k = Ok b <-> exists a, m = Ok a /\ k a = Ok b.
Proof.
  destruct m as [a|e]; simpl; split.
  - intros H. by exists a.
  - by intros (a' & [= ->] & H).
  - discriminate.
  - by intros (a' & [=] & _).
Qed.

Lemma bind_ok {A B} (a : A) (k : A -> result B) : Py.bind (Ok a) k = k a.
Proof. done. Qed.

Lemma bind_Raise {A B} (m : result A) (k : A -> result B) e :
  m = Raise e -> Py.bind m k = Raise e.
Proof. by intros ->. Qed.

Ltac bind_inv H :=
  repeat match type of H with
  | Py.bind _ _ = Ok _ =>
      let a := fresh "a" in
      let Ha := fresh "Ha" in
      apply bind_Ok in H as (a & Ha & H)
  end.

(** ** Transactions *)

Section TransactionFacts.
Context {L : Lib}.

Lemma init_v1 src sequence fee ops memo tb v1 tx :
  Transaction.__init__ src sequence fee ops memo tb v1 = Ok tx ->
  Transaction.v1 tx = v1.
Proof.
  unfold Transaction.__init__. intros H. bind_inv H.
  by injection H as <-.
Qed.

(** A decoded transaction carries the version flag it was decoded with. *)
Lemma from_xdr_object_v1 subclasses x v1 tx :
  Transaction.from_xdr_object subclasses x v1 = Ok tx ->
  Transaction.v1 tx = v1.
Proof.
  unfold Transaction.from_xdr_object. intros H. bind_inv H.
  by eapply init_v1.
Qed.

(** With the version flag set, [to_xdr_object] never returns: it reaches
    the unbound name, unless a conversion before it has raised. *)
Lemma to_xdr_object_v1_raises tx :
  Transaction.v1 tx = true ->
  exists e, Transaction.to_xdr_object tx = Raise e.
Proof.
  intros Hv. unfold Transaction.to_xdr_object. rewrite Hv.
  destruct (Memo_to_xdr_object _); simpl; [|by eauto].
  destruct (mapM _ _); simpl; [|by eauto].
  destruct (Transaction.time_bounds tx) as [tb|]; simpl.
  - destruct (TimeBounds_to_xdr_object tb); simpl; [|by eauto].
    destruct (xdr_new _ _ _); simpl; by eauto.
  - destruct (xdr_new _ _ _); simpl; by eauto.
Qed.

(** [Transaction.to_xdr_object] never returns: under the version flag it
    reaches the unbound name [source_account], without it the unbound
    name [Xdr], unless a conversion before has raised. *)
Lemma to_xdr_object_raises tx :
  exists e, Transaction.to_xdr_object tx = Raise e.
Proof.
  destruct (Transaction.v1 tx) eqn:Hv; [by apply to_xdr_object_v1_raises|].
  unfold Transaction.to_xdr_object. rewrite Hv.
  destruct (Memo_to_xdr_object _) as [m|]; simpl; [|by eauto].
  destruct (mapM _ _) as [ops|]; simpl; [|by eauto].
  destruct (match Transaction.time_bounds tx with
            | Some tb => TimeBounds_to_xdr_object tb
            | None => Ok ONone
            end) as [tb'|]; simpl; [|by eauto].
  destruct (xdr_new "TransactionExt" _ _) as [ext|]; simpl; [|by eauto].
  destruct (Keypair_from_public_key _); simpl; [|by eauto].
  destruct (Keypair_xdr_account_id _); simpl; [|by eauto].
  destruct (getattr "ed25519" _); simpl; by eauto.
Qed.

Lemma and_then_true x y :
  Transaction.and_then x y = Ok true <-> x = true /\ y = Ok true.
Proof. destruct x; simpl; split; (tauto || (by intros [? ?]) || done). Qed.

(** Induction on XDR objects, with the hypothesis for every element of a
    list and every attribute of an instance. *)
Lemma obj_nested_ind (P : obj -> Prop) :
  P ONone -> (forall z, P (OInt z)) -> (forall b, P (OBytes b)) ->
  (forall s, P (OStr s)) ->
  (forall l, Forall P l -> P (OList l)) ->
  (forall cls attrs, Forall (fun na => P na.2) attrs -> P (OInst cls attrs)) ->
  forall o, P o.
Proof.
  intros HN HI HB HS HL HO. fix IH 1. intros [| z | b | s | l | cls attrs].
  - exact HN.
  - apply HI.
  - apply HB.
  - apply HS.
  - apply HL. induction l as [|x l IHl]; constructor; [apply IH|exact IHl].
  - apply HO. induction attrs as [|[n x] attrs IHl]; constructor;
      [apply IH|exact IHl].
Qed.

(** [==] on XDR objects holds of equal objects only, and of all of them. *)
Lemma py_eq_iff a : forall b, py_eq a b = true <-> a = b.
Proof.
  induction a as [| z | x | s | l IHl | cls attrs IHl] using obj_nested_ind;
    intros [| z' | x' | s' | l' | cls' attrs']; simpl;
    try (split; [discriminate|discriminate]); try done.
  - rewrite Z.eqb_eq. split; [by intros ->|by intros [= ->]].
  - unfold bytes_eqb. rewrite bool_decide_eq_true.
    split; [by intros ->|by intros [= ->]].
  - rewrite String.eqb_eq. split; [by intros ->|by intros [= ->]].
  - revert l'. induction IHl as [|a l Ha _ IH]; intros [|b l'];
      try (split; [discriminate|discriminate]); try done.
    rewrite andb_true_iff, Ha, IH.
    split; [by intros [-> [= ->]]|by intros [= -> ->]].
  - rewrite andb_true_iff, String.eqb_eq.
    assert (Hattrs : forall attrs',
      (fix go (x y : list (string * obj)) : bool :=
         match x, y with
         | [], [] => true
         | (n, a) :: x', (m, b) :: y' =>
             String.eqb n m && py_eq a b && go x' y'
         | _, _ => false
         end) attrs attrs' = true <-> attrs = attrs').
    { clear cls cls'. induction IHl as [|[n a] l Ha _ IH]; intros [|[m b] l'];
        try (split; [discriminate|discriminate]); try done.
      rewrite !andb_true_iff, String.eqb_eq. simpl in Ha. rewrite Ha, IH.
      split; [by intros [[-> ->] ->]|by intros [= -> -> ->]]. }
    rewrite Hattrs. split; [by intros [-> ->]|by intros [= -> ->]].
Qed.

Lemma py_eq_refl a : py_eq a a = true.
Proof. by apply py_eq_iff. Qed.

Lemma py_eq_sym a b : py_eq a b = py_eq b a.
Proof.
  destruct (py_eq a b) eqn:Hab, (py_eq b a) eqn:Hba; try done.
  - apply py_eq_iff in Hab as ->. by rewrite py_eq_refl in Hba.
  - apply py_eq_iff in Hba as ->. by rewrite py_eq_refl in Hab.
Qed.


Lemma Operation_eq_iff (a b : Operation.t) :
  Operation.__eq__ a b = Ok true <->
  Operation.op_class a = Operation.op_class b /\
  exists x, Operation.to_xdr_object a = Ok x /\
            Operation.to_xdr_object b = Ok x.
Proof.
  unfold Operation.__eq__.
  destruct (String.eqb_spec (Operation.op_class a) (Operation.op_class b))
    as [Hc|Hc].
  - split.
    + intros H. bind_inv H. injection H as H. apply py_eq_iff in H as ->.
      eauto.
    + intros (_ & x & -> & ->). simpl. by rewrite py_eq_refl.
  - split; [discriminate|by intros [? _]].
Qed.

(** Comparing in the other order gives the same answer, when the
    comparison returns one. *)
Lemma Operation_eq_sym (a b : Operation.t) r :
  Operation.__eq__ a b = Ok r -> Operation.__eq__ b a = Ok r.
Proof.
  unfold Operation.__eq__. rewrite (String.eqb_sym (Operation.op_class b)).
  destruct (String.eqb _ _); [|done].
  intros H. bind_inv H. rewrite Ha0, Ha. simpl. by rewrite py_eq_sym.
Qed.

(** An element comparison answers [True] exactly for the same object
    and for two objects of one class with the same encoding. *)
Lemma item_eq_true (a b : Operation.t) :
  Transaction.item_eq a b = Ok true <-> Transaction.same_operation a b.
Proof.
  unfold Transaction.item_eq, Transaction.same_operation.
  destruct (Z.eqb_spec (Operation.op_id a) (Operation.op_id b)) as [Hid|Hid].
  - split; [by left|done].
  - rewrite Operation_eq_iff. split; [by right|]. by intros [?|?].
Qed.

Lemma item_eq_sym (a b : Operation.t) r :
  Transaction.item_eq a b = Ok r -> Transaction.item_eq b a = Ok r.
Proof.
  unfold Transaction.item_eq.
  rewrite (Z.eqb_sym (Operation.op_id b)).
  destruct (_ =? _); [done|apply Operation_eq_sym].
Qed.

Lemma items_eq_true (l1 : list Operation.t) : forall l2,
  Transaction.items_eq l1 l2 = Ok true <->
  Forall2 Transaction.same_operation l1 l2.
Proof.
  induction l1 as [|a l1 IH]; intros [|b l2]; simpl.
  - split; [constructor|done].
  - split; [discriminate|inversion 1].
  - split; [discriminate|inversion 1].
  - rewrite Forall2_cons, <- IH, <- item_eq_true. split.
    + intros H. apply bind_Ok in H as ([] & He & H); [done|discriminate].
    + intros [-> H]. done.
Qed.

Lemma items_eq_sym (l1 : list Operation.t) : forall l2 r,
  Transaction.items_eq l1 l2 = Ok r -> Transaction.items_eq l2 l1 = Ok r.
Proof.
  induction l1 as [|a l1 IH]; intros [|b l2] r; simpl; try done.
  intros H. apply bind_Ok in H as (e & He & H).
  rewrite (item_eq_sym _ _ _ He). simpl.
  destruct e; [by apply IH|done].
Qed.

(** List equality answers [True] exactly for two lists of the same
    length whose elements are pairwise the same object or of one class
    with the same encoding. *)
Lemma operations_eq_true (l1 l2 : list Operation.t) :
  Transaction.operations_eq l1 l2 = Ok true <->
  Forall2 Transaction.same_operation l1 l2.
Proof.
  unfold Transaction.operations_eq.
  destruct (Nat.eqb_spec (length l1) (length l2)) as [Hlen|Hlen].
  - apply items_eq_true.
  - split; [discriminate|]. intros H. by apply Forall2_length in H.
Qed.

Lemma operations_eq_sym (l1 l2 : list Operation.t) r :
  Transaction.operations_eq l1 l2 = Ok r ->
  Transaction.operations_eq l2 l1 = Ok r.
Proof.
  unfold Transaction.operations_eq. rewrite (Nat.eqb_sym (length l2)).
  destruct (_ =? _)%nat; [apply items_eq_sym|done].
Qed.

Lemma operations_eq_refl (l : list Operation.t) :
  Transaction.operations_eq l l = Ok true.
Proof.
  apply operations_eq_true. induction l as [|a l IH]; constructor; [|done].
  by left.
Qed.

(** C9: for two transactions, [__eq__] returns [True] exactly when the
    sources, sequence numbers, fees, memos and time bounds are equal and
    the operation lists have the same length and hold, position by
    position, the same object or two operations of one class with the
    same encoding.  The version flag is not looked at: the answer does
    not change with the flags, and a v0 and a v1 transaction with the
    same field values compare equal. *)
Theorem Transaction_eq_ignores_version (a b : Transaction.t) :
  (Transaction.__eq__ a b = Ok true <->
     Transaction.source a = Transaction.source b /\
     Transaction.sequence a = Transaction.sequence b /\
     Transaction.fee a = Transaction.fee b /\
     Forall2 Transaction.same_operation
       (Transaction.operations a) (Transaction.operations b) /\
     Transaction.memo a = Transaction.memo b /\
     Transaction.time_bounds a = Transaction.time_bounds b) /\
  (forall va vb,
     Transaction.__eq__ (Transaction.set_v1 va a) (Transaction.set_v1 vb b)
     = Transaction.__eq__ a b) /\
  (forall va vb,
     Transaction.__eq__ (Transaction.set_v1 va a) (Transaction.set_v1 vb a)
     = Ok true).
Proof.
  assert (Hiff : forall a b : Transaction.t,
    Transaction.__eq__ a b = Ok true <->
     Transaction.source a = Transaction.source b /\
     Transaction.sequence a = Transaction.sequence b /\
     Transaction.fee a = Transaction.fee b /\
     Forall2 Transaction.same_operation
       (Transaction.operations a) (Transaction.operations b) /\
     Transaction.memo a = Transaction.memo b /\
     Transaction.time_bounds a = Transaction.time_bounds b).
  { clear a b. intros a b. unfold Transaction.__eq__.
    rewrite !and_then_true, bool_decide_eq_true, !py_eq_iff,
      <- operations_eq_true.
    split.
    - intros (Hs & Hq & Hf & H).
      apply bind_Ok in H as ([] & Ho & H); [|discriminate].
      apply and_then_true in H as [_ H]. apply and_then_true in H as [Hm H].
      apply bool_decide_eq_true in Hm. injection H as H.
      apply bool_decide_eq_true in H. done.
    - intros (Hs & Hq & Hf & Ho & Hm & Ht). split_and!; try done.
      rewrite Ho. simpl. by rewrite !bool_decide_eq_true_2. }
  split_and!; [apply Hiff|done|].
  intros va vb. apply Hiff. simpl. split_and!; try done.
  apply operations_eq_true, operations_eq_refl.
Qed.

End TransactionFacts.

(** ** Envelopes *)

Section EnvelopeFacts.
Context {L : Lib} (subclasses : list Operation.subclass).

Lemma bindM_lift {A B} (r : result A) (k : A -> M B) h :
  bindM (lift r) k h =
  match r with Ok a => k a h | Raise e => (Raise e, h) end.
Proof. unfold bindM, lift. by destruct r. Qed.

Lemma bindM_ret {A B} (a : A) (k : A -> M B) h :
  bindM (ret a) k h = k a h.
Proof. done. Qed.

Lemma bindM_read {B} l (k : Transaction.t -> M B) (h : heap) tx :
  h !! l = Some tx -> bindM (read l) k h = k tx h.
Proof. intros H. unfold bindM, read. by rewrite H. Qed.

(** The name [Xdr] is not among the names of the module. *)
Lemma Xdr_unbound {B} (k : unit -> M B) (h : heap) :
  bindM TransactionEnvelope.lookup_Xdr k h = (Raise (NameError "Xdr"), h).
Proof. done. Qed.

(** [signature_base()] stops at its second statement, which calls
    [Xdr.StellarXDRPacker()]. *)
Lemma signature_base_NameError (self : TransactionEnvelope.t) (h : heap) :
  TransactionEnvelope.signature_base subclasses self h
  = (Raise (NameError "Xdr"), h).
Proof. unfold TransactionEnvelope.signature_base. apply Xdr_unbound. Qed.


(** C1, on the code: [signature_base()] never returns a signature base.
    Whatever the version flag of the envelope's transaction, the call
    ends in an exception: the module binds no name [Xdr], and the
    transaction that would be encoded has its flag set, for which
    [Transaction.to_xdr_object] reaches the unbound name
    [source_account] (see [to_xdr_object_raises]). *)
Theorem signature_base_raises (self : TransactionEnvelope.t) (h : heap) :
  exists e,
    fst (TransactionEnvelope.signature_base subclasses self h) = Raise e.
Proof. rewrite signature_base_NameError. by eexists. Qed.

(** C2, on the code: for an envelope whose transaction is v1, [to_xdr()]
    raises, so there is nothing to decode. *)
Theorem to_xdr_v1_raises (self : TransactionEnvelope.t) (h : heap)
    (stored : Transaction.t) :
  h !! TransactionEnvelope.transaction self = Some stored ->
  Transaction.v1 stored = true ->
  exists e, TransactionEnvelope.to_xdr self h = (Raise e, h).
Proof.
  intros Hs Hv.
  unfold TransactionEnvelope.to_xdr, TransactionEnvelope.to_xdr_object.
  unfold bindM at 1. rewrite (bindM_read _ _ _ _ Hs), bindM_lift.
  destruct (to_xdr_object_v1_raises stored Hv) as [e ->]. by eauto.
Qed.

Lemma from_xdr_object_NameError (te_xdr_object : obj)
    (network_passphrase : string) (h : heap) :
  TransactionEnvelope.from_xdr_object subclasses te_xdr_object
    network_passphrase h
  = (match getattr "type" te_xdr_object with
     | Ok _ => Raise (NameError "Xdr")
     | Raise e => Raise e
     end, h).
Proof.
  unfold TransactionEnvelope.from_xdr_object. rewrite bindM_lift.
  destruct (getattr "type" te_xdr_object); [apply Xdr_unbound|done].
Qed.

(** C7, on the code: [from_xdr_object] never decodes an envelope.  After
    reading the discriminant it compares it with
    [Xdr.const.ENVELOPE_TYPE_TX_V0], and the module binds no name [Xdr]
    (the XDR package is imported as [stellarxdr]): whatever the
    discriminant is, the call raises NameError, or AttributeError when
    the discriminant cannot be read, and creates no object. *)
Theorem envelope_from_xdr_object_raises (te_xdr_object : obj)
    (network_passphrase : string) (h : heap) :
  TransactionEnvelope.from_xdr_object subclasses te_xdr_object
    network_passphrase h
  = (match getattr "type" te_xdr_object with
     | Ok _ => Raise (NameError "Xdr")
     | Raise e => Raise e
     end, h).
Proof. apply from_xdr_object_NameError. Qed.

End EnvelopeFacts.

(** ** Signing *)

Section SignFacts.
Context {L : Lib} (subclasses : list Operation.subclass).
Context (sha256 : bytes -> bytes).
Context (ed25519_sign : bytes -> bytes -> bytes).

Import BaseTransactionEnvelope.

Lemma py_eq_bytes (a b : bytes) :
  py_eq (OBytes a) (OBytes b) = true <-> a = b.
Proof. simpl. unfold bytes_eqb. apply bool_decide_eq_true. Qed.

(** The duplicate test looks at hints only: after a signature with hint
    [hint] is appended to a list that held none, the list holds one,
    whatever the signature bytes are. *)
Lemma has_hint_snoc hint sigs signature :
  has_hint hint sigs = Ok false ->
  has_hint hint (sigs ++ [DecoratedSignature hint signature]) = Ok true.
Proof.
  induction sigs as [|s rest IH]; simpl; intros H.
  - unfold bytes_eqb. by rewrite bool_decide_eq_true_2.
  - destruct (getattr "hint" s) as [x|e]; simpl in *; [|done].
    destruct (py_eq x (OBytes hint)); [done|by apply IH].
Qed.

(** Appending a signature with another hint does not change whether the
    list holds one with hint [hint]. *)
Lemma has_hint_snoc_other hint hint' sigs signature :
  hint' <> hint ->
  has_hint hint sigs = Ok false ->
  has_hint hint (sigs ++ [DecoratedSignature hint' signature]) = Ok false.
Proof.
  intros Hne. induction sigs as [|s rest IH]; simpl; intros H.
  - unfold bytes_eqb. by rewrite bool_decide_eq_false_2.
  - destruct (getattr "hint" s) as [x|e]; simpl in *; [|done].
    destruct (py_eq x (OBytes hint)); [done|by apply IH].
Qed.

(** C3, on the code: [sign] never reaches the duplicate test.  Its first
    step hashes the signature base, and [signature_base()] raises
    NameError for every envelope: the first call with a key pair raises,
    no signature is appended, and a second call with the same key pair
    raises NameError again, not [SignatureExistError]. *)
Theorem sign_raises_before_duplicate_test (signer : Keypair)
    (self : TransactionEnvelope.t) (h : heap) :
  sign subclasses sha256 ed25519_sign signer self h
  = (Raise (NameError "Xdr"), h).
Proof.
  unfold sign, hash. unfold bindM at 1. unfold bindM at 1.
  by rewrite signature_base_NameError.
Qed.

End SignFacts.

(** ** Numerals *)

Section NumeralFacts.
Import Dec.
Local Open Scope N_scope.

Lemma value_snoc ds d : value (ds ++ [d]) = 10 * value ds + d.
Proof. unfold value. by rewrite fold_left_app. Qed.

Lemma value_zero_cons ds : value (0 :: ds) = value ds.
Proof. done. Qed.

Lemma value_zeros j ds : value (repeat 0 j ++ ds) = value ds.
Proof. induction j as [|j IH]; [done|]. simpl repeat. by rewrite <- IH. Qed.

Lemma pow2_le_pow10 k : 2 ^ k <= 10 ^ k.
Proof. apply N.pow_le_mono_l. lia. Qed.

Lemma digits_rev_small f n : n < 10 -> digits_rev (S f) n = [n].
Proof. intros H. simpl. by apply N.ltb_lt in H as ->. Qed.

Lemma digits_rev_step f n :
  10 <= n -> digits_rev (S f) n = (n mod 10) :: digits_rev f (n / 10).
Proof.
  intros H. simpl. destruct (N.ltb_spec n 10); [lia|done].
Qed.

Lemma div10_lt_pow2 n f : n < 2 ^ N.of_nat (S f) -> n / 10 < 2 ^ N.of_nat f.
Proof.
  intros H. rewrite Nat2N.inj_succ, N.pow_succ_r' in H.
  apply N.Div0.div_lt_upper_bound. lia.
Qed.

(** The fuel does not matter once it covers the binary size. *)
Lemma digits_rev_indep f : forall g n,
  n < 2 ^ N.of_nat (S f) -> n < 2 ^ N.of_nat (S g) ->
  digits_rev (S f) n = digits_rev (S g) n.
Proof.
  induction f as [|f IH]; intros g n Hf Hg.
  - change (2 ^ N.of_nat 1) with 2 in Hf. by rewrite !digits_rev_small by lia.
  - destruct (N.lt_ge_cases n 10) as [Hs|Hl].
    + by rewrite !digits_rev_small.
    + destruct g as [|g].
      { change (2 ^ N.of_nat 1) with 2 in Hg. lia. }
      rewrite (digits_rev_step (S f) n), (digits_rev_step (S g) n) by done.
      f_equal. apply IH; by apply div10_lt_pow2.
Qed.

Lemma size_fuel n : n < 2 ^ N.of_nat (S (N.to_nat (N.size n))).
Proof.
  rewrite Nat2N.inj_succ, N2Nat.id, N.pow_succ_r'.
  pose proof (N.size_gt n). lia.
Qed.

Lemma digits_small n : n < 10 -> digits n = [n].
Proof. intros H. unfold digits. by rewrite digits_rev_small. Qed.

Lemma digits_step n :
  10 <= n -> digits n = digits (n / 10) ++ [n mod 10].
Proof.
  intros H. unfold digits. rewrite digits_rev_step by done.
  simpl rev. f_equal. f_equal.
  pose proof (size_fuel n) as Hn.
  destruct (N.to_nat (N.size n)) as [|f] eqn:Hf.
  { change (2 ^ N.of_nat 1) with 2 in Hn. lia. }
  apply digits_rev_indep.
  - by apply div10_lt_pow2.
  - apply size_fuel.
Qed.

Lemma digits_snoc m d :
  1 <= m -> d < 10 -> digits (10 * m + d) = digits m ++ [d].
Proof.
  intros Hm Hd. rewrite digits_step by lia.
  replace ((10 * m + d) / 10) with m.
  - replace ((10 * m + d) mod 10) with d; [done|].
    rewrite N.add_comm, N.mul_comm, N.Div0.mod_add.
    by rewrite N.mod_small.
  - symmetry. rewrite N.add_comm, N.mul_comm, N.div_add by lia.
    rewrite N.div_small by done. lia.
Qed.

(** A numeral without a leading zero is the numeral of its value. *)
Lemma digits_value ds d0 :
  Forall (fun d => d < 10) (d0 :: ds) -> d0 <> 0 ->
  digits (value (d0 :: ds)) = d0 :: ds /\ 1 <= value (d0 :: ds).
Proof.
  induction ds as [|d ds IH] using rev_ind; intros Hall Hnz.
  - apply Forall_cons in Hall as [Hd _].
    change (value [d0]) with d0. rewrite digits_small by done. split; [done|lia].
  - rewrite app_comm_cons in Hall. apply Forall_app in Hall as [Hall Hd].
    apply Forall_cons in Hd as [Hd _].
    destruct (IH Hall Hnz) as [IHd IHv].
    rewrite app_comm_cons, value_snoc. split; [|lia].
    rewrite digits_snoc by done. by rewrite IHd.
Qed.

Lemma length_digits_le n k :
  (1 <= k)%nat -> n < 10 ^ N.of_nat k -> (length (digits n) <= k)%nat.
Proof.
  revert n. induction k as [|k IH]; intros n Hk Hn; [lia|].
  destruct (N.lt_ge_cases n 10) as [Hs|Hl].
  - rewrite digits_small by done. simpl. lia.
  - rewrite digits_step, length_app by done. simpl.
    assert (k <> 0)%nat.
    { intros ->. simpl in Hn. lia. }
    assert (length (digits (n / 10)) <= k)%nat; [|lia].
    apply IH; [lia|].
    rewrite Nat2N.inj_succ, N.pow_succ_r' in Hn.
    apply N.Div0.div_lt_upper_bound. lia.
Qed.

Lemma length_digits_gt n k :
  10 ^ N.of_nat k <= n -> (k < length (digits n))%nat.
Proof.
  revert n. induction k as [|k IH]; intros n Hn.
  - destruct (N.lt_ge_cases n 10) as [Hs|Hl].
    + rewrite digits_small by done. simpl. lia.
    + rewrite digits_step, length_app by done. simpl. lia.
  - rewrite Nat2N.inj_succ, N.pow_succ_r' in Hn.
    assert (1 <= 10 ^ N.of_nat k).
    { pose proof (N.pow_nonzero 10 (N.of_nat k)). lia. }
    rewrite digits_step, length_app by lia. simpl.
    assert (k < length (digits (n / 10)))%nat; [|lia].
    apply IH. apply N.div_le_lower_bound; lia.
Qed.

End NumeralFacts.

(** ** Decimal arithmetic of the amount codec *)

Section DecimalFacts.
Import Dec.

Lemma ndigits_le c k :
  (1 <= k)%nat -> (c < 10 ^ N.of_nat k)%N -> ndigits c <= Z.of_nat k.
Proof.
  intros Hk Hc. unfold ndigits.
  pose proof (length_digits_le c k Hk Hc). lia.
Qed.

Lemma ndigits_gt c k :
  (10 ^ N.of_nat k <= c)%N -> Z.of_nat k < ndigits c.
Proof.
  intros Hc. unfold ndigits. pose proof (length_digits_gt c k Hc). lia.
Qed.

(** A number of at most 28 digits with an exponent between [Etiny] and 0
    is representable: [_fix] returns it as it is. *)
Lemma fix_finite_id s c e :
  (c < 10 ^ 28)%N -> Etiny <= e <= 0 -> fix_finite s c e = Ok (Finite s c e).
Proof.
  intros Hc He. unfold fix_finite.
  destruct (N.eqb_spec c 0) as [->|Hnz].
  - f_equal. f_equal. unfold Etiny, Emin, Emax, prec in *. lia.
  - pose proof (ndigits_le c 28 ltac:(lia) Hc) as Hn.
    unfold Etiny, Etop, Emin, Emax, prec in *.
    destruct (Z.ltb_spec (999999 - 28 + 1) (ndigits c + e - 28)); [lia|].
    destruct (Z.ltb_spec e
      (Z.max (ndigits c + e - 28) (-999999 - 28 + 1))); [lia|done].
Qed.

Lemma mul_ONE c e :
  (c * 10 ^ 7 < 10 ^ 28)%N -> Etiny <= e <= 0 ->
  mul (Finite false c e) Operation._ONE = Ok (Finite false (c * 10 ^ 7) e).
Proof.
  intros Hc He. unfold mul, Operation._ONE, of_int. simpl.
  rewrite Z.add_0_r. change (Pos.to_nat 1) with 1%nat.
  by apply fix_finite_id.
Qed.

Lemma pow10_split (a b : nat) :
  (10 ^ N.of_nat (a + b) = 10 ^ N.of_nat a * 10 ^ N.of_nat b)%N.
Proof. by rewrite Nat2N.inj_add, N.pow_add_r. Qed.

Lemma pow10_nat (k : nat) : pow10 (Z.of_nat k) = (10 ^ N.of_nat k)%N.
Proof. unfold pow10. f_equal. lia. Qed.

Lemma pow10_pos (k : nat) : (1 <= 10 ^ N.of_nat k)%N.
Proof. pose proof (N.pow_nonzero 10 (N.of_nat k)). lia. Qed.

(** Scaling by [10^7] leaves room for up to 7 fractional digits: the
    integral value is reached without rounding. *)
Lemma to_integral_exact_scaled c (k : nat) :
  (k <= 7)%nat ->
  to_integral_exact (Finite false (c * 10 ^ 7) (- Z.of_nat k))
  = Ok (Finite false (c * 10 ^ N.of_nat (7 - k)) 0).
Proof.
  intros Hk. unfold to_integral_exact.
  destruct (Z.leb_spec 0 (- Z.of_nat k)) as [H0|H0].
  - assert (k = 0)%nat as -> by lia. done.
  - destruct (N.eqb_spec (c * 10 ^ 7) 0) as [Hz|Hnz].
    + assert (c = 0%N) as -> by lia. done.
    + assert (1 <= c)%N as Hc by lia.
      pose proof (ndigits_gt (c * 10 ^ 7) 7) as Hn.
      destruct (Z.ltb_spec (ndigits (c * 10 ^ 7) + - Z.of_nat k) 0) as [Hlt|_].
      { change (N.of_nat 7) with 7%N in Hn. lia. }
      unfold round_half_even. rewrite Z.opp_involutive, pow10_nat.
      assert (Hsplit : (c * 10 ^ 7 =
                c * 10 ^ N.of_nat (7 - k) * 10 ^ N.of_nat k)%N).
      { rewrite <- N.mul_assoc, <- pow10_split.
        by replace (7 - k + k)%nat with 7%nat by lia. }
      pose proof (pow10_pos k) as Hp.
      rewrite Hsplit, N.Div0.mod_mul, N.div_mul by lia. simpl.
      destruct (10 ^ N.of_nat k)%N eqn:Hpk; [lia|done].
Qed.

Lemma to_int_integral v : to_int (Finite false v 0) = Ok (Z.of_N v).
Proof. unfold to_int. simpl. f_equal. f_equal. unfold pow10. simpl. lia. Qed.

Lemma strip_zeros_pow (j : nat) : forall fuel c e,
  (j <= fuel)%nat -> e + Z.of_nat j <= 0 ->
  strip_zeros fuel (c * 10 ^ N.of_nat j) e 0
  = strip_zeros (fuel - j) c (e + Z.of_nat j) 0.
Proof.
  induction j as [|j IH]; intros fuel c e Hf He.
  - simpl. rewrite N.mul_1_r, Z.add_0_r. f_equal. lia.
  - destruct fuel as [|fuel]; [lia|].
    simpl strip_zeros.
    destruct (Z.ltb_spec e 0) as [_|]; [|lia].
    rewrite Nat2N.inj_succ, N.pow_succ_r'.
    replace (c * (10 * 10 ^ N.of_nat j))%N
      with (c * 10 ^ N.of_nat j * 10)%N by lia.
    rewrite N.Div0.mod_mul, N.div_mul by lia. simpl.
    rewrite IH by lia. f_equal. lia.
Qed.

Lemma strip_zeros_stop fuel c (k : nat) :
  (k = 0%nat \/ (c mod 10 <> 0)%N) ->
  strip_zeros fuel c (- Z.of_nat k) 0 = (c, - Z.of_nat k).
Proof.
  intros H. destruct fuel as [|fuel]; [done|]. simpl.
  destruct H as [-> | H].
  - done.
  - destruct (N.eqb_spec (c mod 10) 0); [done|]. by rewrite andb_false_r.
Qed.

(** The quotient by [10^7] is exact: the coefficient [c] of the amount and
    the number [k] of its fractional digits come back. *)
Lemma truediv_ONE c (k : nat) :
  (k <= 7)%nat -> (1 <= c)%N -> (c * 10 ^ N.of_nat (7 - k) < 10 ^ 19)%N ->
  (k = 0%nat \/ (c mod 10 <> 0)%N) ->
  truediv (of_int (Z.of_N (c * 10 ^ N.of_nat (7 - k)))) Operation._ONE
  = Ok (Finite false c (- Z.of_nat k)).
Proof.
  intros Hk Hc Hv Hlast.
  set (v := (c * 10 ^ N.of_nat (7 - k))%N) in *.
  pose proof (pow10_pos (7 - k)) as Hp.
  assert (1 <= v)%N as Hv1 by (unfold v; nia).
  unfold Operation._ONE, of_int.
  replace (Z.of_N v <? 0) with false by (symmetry; apply Z.ltb_ge; lia).
  replace (Z.abs_N (Z.of_N v)) with v by lia. unfold truediv. simpl check_nans. cbv iota. simpl xorb.
  change (Z.abs_N (10 ^ 7)) with (10 ^ 7)%N.
  change (10 ^ 7 <? 0) with false.
  destruct (N.eqb_spec (10 ^ 7) 0) as [Habs|_]; [done|].
  destruct (N.eqb_spec v 0) as [|_]; [lia|].
  change (ndigits (10 ^ 7)) with 8.
  pose proof (ndigits_le v 19 ltac:(lia) Hv) as Hnd.
  pose proof (ndigits_gt v 0 Hv1) as Hnd0.
  unfold prec.
  set (shift := 8 - ndigits v + 28 + 1) in *.
  destruct (Z.leb_spec 0 shift) as [_|]; [|lia].
  assert (Hshift : shift = Z.of_nat (Z.to_nat shift)) by lia.
  set (n := Z.to_nat shift) in *.
  assert (Hn : (18 <= n)%nat) by lia.
  rewrite Hshift, pow10_nat.
  assert (Hnum : (v * 10 ^ N.of_nat n
                  = c * 10 ^ N.of_nat (n - k) * 10 ^ 7)%N).
  { unfold v. rewrite <- !N.mul_assoc. f_equal.
    change 7%N with (N.of_nat 7). rewrite <- !pow10_split. f_equal. lia. }
  rewrite Hnum, N.Div0.mod_mul, N.div_mul by done. simpl negb. cbv iota.
  replace (Z.to_nat (0 - 0 - (0 - 0 - Z.of_nat n))) with n by lia.
  rewrite strip_zeros_pow by lia.
  replace (0 - 0 - Z.of_nat n + Z.of_nat (n - k)) with (- Z.of_nat k) by lia.
  rewrite strip_zeros_stop by done.
  apply fix_finite_id.
  - assert (c <= v)%N by (unfold v; nia). lia.
  - unfold Etiny, Emin, prec. lia.
Qed.

End DecimalFacts.

(** ** Decimal strings *)

Section StringFacts.
Import Dec.

Lemma digit_facts c :
  is_digit c = true ->
  is_space c = false /\ is_underscore c = false /\
  Ascii.eqb c "."%char = false /\ Ascii.eqb c "-"%char = false /\
  Ascii.eqb c "+"%char = false /\
  digit_char (digit_val c) = c /\ (digit_val c < 10)%N /\
  (is_zero_char c = true <-> digit_val c = 0%N).
Proof.
  destruct c as [[] [] [] [] [] [] [] []]; vm_compute; intros H;
    try discriminate H; repeat split; (done || lia).
Qed.

Lemma span_digits a b :
  forallb is_digit a = true ->
  match b with [] => True | c :: _ => is_digit c = false end ->
  span is_digit (a ++ b) = (a, b).
Proof.
  intros Ha Hb. induction a as [|x a IH]; simpl.
  - destruct b as [|c b]; [done|]. simpl. by rewrite Hb.
  - simpl in Ha. apply andb_true_iff in Ha as [Hx Ha].
    by rewrite Hx, IH.
Qed.

Lemma lstrip_id l :
  match l with [] => True | c :: _ => is_space c = false end ->
  lstrip is_space l = l.
Proof. destruct l as [|c l]; [done|]. simpl. by intros ->. Qed.

Lemma plain_chars_clean ip fp c :
  forallb is_digit ip = true -> forallb is_digit fp = true ->
  c ∈ plain_chars ip fp ->
  is_space c = false /\ is_underscore c = false.
Proof.
  intros Hip Hfp Hc.
  assert (is_digit c = true \/ c = "."%char) as [Hd| ->].
  { unfold plain_chars in Hc. apply elem_of_app in Hc as [Hc|Hc].
    - left. rewrite forallb_forall in Hip. by apply Hip, list_elem_of_In.
    - destruct fp as [|f fp]; [by apply elem_of_nil in Hc|].
      apply elem_of_cons in Hc as [->|Hc]; [by right|].
      left. rewrite forallb_forall in Hfp. by apply Hfp, list_elem_of_In. }
  - by destruct (digit_facts c Hd) as (? & ? & _).
  - done.
Qed.

Lemma strip_plain cs :
  (forall c, c ∈ cs -> is_space c = false /\ is_underscore c = false) ->
  remove_underscores (strip cs) = cs.
Proof.
  intros H.
  assert (Hl : forall l, (forall c, c ∈ l -> c ∈ cs) ->
                 lstrip is_space l = l).
  { intros l Hsub. apply lstrip_id. destruct l as [|c l]; [done|].
    apply H, Hsub. by left. }
  unfold strip. rewrite (Hl cs) by done.
  rewrite Hl, rev_involutive.
  - unfold remove_underscores. clear Hl.
    induction cs as [|c cs IH]; [done|].
    simpl. destruct (H c) as [_ ->]; [by left|]. simpl. f_equal.
    apply IH. intros c' Hc'. apply H. by right.
  - intros c Hc. by apply list_elem_of_In, in_rev, list_elem_of_In in Hc.
Qed.

Lemma split_sign_digit i r :
  is_digit i = true -> split_sign (i :: r) = (false, i :: r).
Proof.
  intros Hi. destruct (digit_facts i Hi) as (_ & _ & _ & Hm & Hp & _).
  unfold split_sign. by rewrite Hm, Hp.
Qed.

Lemma parse_number_plain i ip fp :
  forallb is_digit (i :: ip) = true -> forallb is_digit fp = true ->
  parse_number (plain_chars (i :: ip) fp) = Some (i :: ip, fp, 0).
Proof.
  intros Hip Hfp.
  assert (Hi : is_digit i = true).
  { simpl in Hip. by apply andb_true_iff in Hip as [? _]. }
  unfold parse_number, plain_chars.
  replace (starts_number _) with true.
  2: { simpl. by rewrite Hi. }
  rewrite span_digits; [|done|by destruct fp].
  destruct fp as [|f fp]; [done|].
  change (Ascii.eqb "." ".") with true. cbv iota.
  rewrite <- (app_nil_r (f :: fp)) at 1.
  by rewrite span_digits.
Qed.

(** A number of at most 21 digits with at most 21 fractional digits is
    within the limits of the conversion. *)
Lemma representable_amount c (k : nat) :
  (c < 10 ^ 21)%N -> (k <= 21)%nat -> representable c (- Z.of_nat k) = true.
Proof.
  intros Hc Hk. unfold representable, MIN_ETINY, MAX_EMAX.
  apply andb_true_iff. split; [apply Z.leb_le; lia|].
  destruct (N.eqb_spec c 0); apply Z.leb_le; [lia|].
  pose proof (ndigits_le c 21 ltac:(lia) Hc). lia.
Qed.

(** [Decimal(s)] of a plain decimal string. *)
Lemma of_string_plain ip fp :
  ip <> [] -> forallb is_digit ip = true -> forallb is_digit fp = true ->
  (int_of_digits (ip ++ fp) < 10 ^ 21)%N -> (length fp <= 21)%nat ->
  of_string (plain ip fp)
  = Ok (Finite false (int_of_digits (ip ++ fp)) (- Z.of_nat (length fp))).
Proof.
  intros Hne Hip Hfp Hc Hk. unfold of_string, plain, chars.
  rewrite list_ascii_of_string_of_list_ascii.
  rewrite strip_plain by (intros c; by apply plain_chars_clean).
  destruct ip as [|i ip]; [done|].
  assert (Hi : is_digit i = true).
  { simpl in Hip. by apply andb_true_iff in Hip as [? _]. }
  change (plain_chars (i :: ip) fp)
    with (i :: ip ++ match fp with [] => [] | _ :: _ => "."%char :: fp end)
    at 1.
  rewrite split_sign_digit by done.
  change (i :: ip ++ match fp with [] => [] | _ :: _ => "."%char :: fp end)
    with (plain_chars (i :: ip) fp).
  rewrite parse_number_plain by done.
  cbv zeta. rewrite Z.sub_0_l. by rewrite representable_amount.
Qed.

Lemma is_amount_inv ip fp :
  is_amount ip fp = true ->
  ip <> [] /\ forallb is_digit ip = true /\ forallb is_digit fp = true /\
  (length fp <= 7)%nat /\ (scaled ip fp <= 9223372036854775807)%N.
Proof.
  unfold is_amount. rewrite !andb_true_iff.
  intros ((((H1 & H2) & H3) & H4) & H5).
  split_and!; try done.
  - by destruct ip.
  - by apply Nat.leb_le.
  - by apply N.leb_le in H5.
Qed.

(** The amount of a decimal string with at most 7 fractional digits and a
    value in range is computed exactly. *)
Lemma to_xdr_amount_plain ip fp :
  is_amount ip fp = true ->
  Operation.to_xdr_amount (Operation.ArgStr (plain ip fp))
  = Ok (Z.of_N (scaled ip fp)).
Proof.
  intros H. apply is_amount_inv in H as (Hne & Hip & Hfp & Hk & Hmax).
  unfold scaled in *. set (c := int_of_digits (ip ++ fp)) in *.
  pose proof (pow10_pos (7 - length fp)) as Hp.
  assert (Hc : (c * 10 ^ 7 < 10 ^ 28)%N).
  { change 7%N with (N.of_nat 7).
    replace 7%nat with (7 - length fp + length fp)%nat at 1 by lia.
    rewrite pow10_split, N.mul_assoc.
    assert (10 ^ N.of_nat (length fp) <= 10 ^ N.of_nat 7)%N.
    { apply N.pow_le_mono_r; lia. }
    change (10 ^ N.of_nat 7)%N with 10000000%N in *.
    change (10 ^ 28)%N with 10000000000000000000000000000%N. nia. }
  assert (Hc21 : (c < 10 ^ 21)%N).
  { change (10 ^ 21)%N with 1000000000000000000000%N. nia. }
  unfold Operation.to_xdr_amount, Operation.Decimal.
  rewrite of_string_plain, bind_ok; [|done|done|done|done|lia].
  rewrite mul_ONE, bind_ok; [|done|unfold Etiny, Emin, prec; lia].
  rewrite to_integral_exact_scaled, bind_ok by done.
  rewrite to_int_integral. unfold try_except. rewrite bind_ok.
  unfold Operation.INT64_MAX. fold c.
  destruct (Z.ltb_spec (Z.of_N (c * 10 ^ N.of_nat (7 - length fp))) 0);
    [lia|].
  destruct (Z.ltb_spec 9223372036854775807
              (Z.of_N (c * 10 ^ N.of_nat (7 - length fp)))); [lia|done].
Qed.

Lemma digit_chars_id l :
  forallb is_digit l = true -> map digit_char (map digit_val l) = l.
Proof.
  induction l as [|c l IH]; [done|]. simpl. intros Hd.
  apply andb_true_iff in Hd as [Hc Hl].
  destruct (digit_facts c Hc) as (_ & _ & _ & _ & _ & -> & _).
  by rewrite IH.
Qed.

Lemma numeral_of_digits i cs :
  forallb is_digit (i :: cs) = true -> is_zero_char i = false ->
  numeral (int_of_digits (i :: cs)) = i :: cs /\
  (1 <= int_of_digits (i :: cs))%N.
Proof.
  intros Hd Hz. unfold numeral, int_of_digits.
  assert (Hall : Forall (fun d => (d < 10)%N) (map digit_val (i :: cs))).
  { apply Forall_forall. intros d Hin. apply list_elem_of_In in Hin.
    apply in_map_iff in Hin as (c & <- & Hc).
    rewrite forallb_forall in Hd. by apply digit_facts, Hd. }
  assert (Hnz : digit_val i <> 0%N).
  { simpl in Hd. apply andb_true_iff in Hd as [Hi _].
    destruct (digit_facts i Hi) as (_ & _ & _ & _ & _ & _ & _ & Hiff).
    intros H0. apply Hiff in H0. congruence. }
  destruct (digits_value (map digit_val cs) (digit_val i) Hall Hnz)
    as [Hdig Hval].
  split; [|done]. simpl map at 2. rewrite Hdig.
  by apply (digit_chars_id (i :: cs)).
Qed.

(** A string of digits whose last digit is not a zero is a run of zeros
    followed by a numeral. *)
Lemma leading_zeros fp c r :
  forallb is_digit fp = true -> rev fp = c :: r -> is_zero_char c = false ->
  exists j i cs,
    fp = repeat "0"%char j ++ i :: cs /\ is_zero_char i = false /\
    forallb is_digit (i :: cs) = true.
Proof.
  revert c r. induction fp as [|x fp IH]; intros c r Hd Hrev Hc; [done|].
  destruct (is_zero_char x) eqn:Hx.
  - apply Ascii.eqb_eq in Hx as ->.
    destruct fp as [|y fp].
    { simpl in Hrev. injection Hrev as <- _. discriminate Hc. }
    simpl in Hd.
    assert (exists r', rev (y :: fp) = c :: r') as [r' Hrev'].
    { simpl in Hrev. simpl.
      destruct (rev fp ++ [y]) as [|c' r'] eqn:E.
      - by destruct (rev fp).
      - simpl in Hrev. injection Hrev as -> _. by exists r'. }
    destruct (IH c r' Hd Hrev' Hc) as (j & i & cs & Hfp & Hi & Hall).
    exists (S j), i, cs. split_and!; [|done|done].
    simpl. by rewrite Hfp.
  - exists 0%nat, x, fp. by split_and!.
Qed.

Lemma int_of_digits_zeros j cs :
  int_of_digits (repeat "0"%char j ++ cs) = int_of_digits cs.
Proof.
  unfold int_of_digits. rewrite map_app, map_repeat.
  change (digit_val "0") with 0%N. apply value_zeros.
Qed.

(** [str(d)] when there are digits before the point. *)
Lemma to_chars_point c (k : nat) :
  (k < length (numeral c))%nat ->
  to_chars (Finite false c (- Z.of_nat k))
  = match k with
    | O => numeral c
    | S _ =>
        firstn (length (numeral c) - k) (numeral c)
        ++ "."%char :: skipn (length (numeral c) - k) (numeral c)
    end.
Proof.
  intros Hk. unfold to_chars. simpl sign_of. cbv iota.
  set (L := numeral c) in *. cbv zeta.
  destruct (Z.leb_spec (- Z.of_nat k) 0) as [_|]; [|lia].
  destruct (Z.ltb_spec (-6) (- Z.of_nat k + Z.of_nat (length L))) as [_|];
    [|lia].
  simpl andb. cbv iota.
  destruct (Z.leb_spec (- Z.of_nat k + Z.of_nat (length L)) 0); [lia|].
  rewrite Z.eqb_refl.
  destruct (Z.leb_spec (Z.of_nat (length L))
              (- Z.of_nat k + Z.of_nat (length L))) as [Hle|Hgt].
  - assert (k = 0)%nat as -> by lia.
    replace (- Z.of_nat 0 + Z.of_nat (length L) - Z.of_nat (length L)) with 0
      by lia.
    simpl. by rewrite !app_nil_r.
  - destruct k as [|k]; [lia|].
    replace (Z.to_nat (- Z.of_nat (S k) + Z.of_nat (length L)))
      with (length L - S k)%nat by lia.
    simpl. by rewrite app_nil_r.
Qed.

(** [str(d)] when all digits are after the point and at most 5 zeros
    come first. *)
Lemma to_chars_fraction c (k : nat) :
  (length (numeral c) <= k)%nat -> (k - length (numeral c) <= 5)%nat ->
  to_chars (Finite false c (- Z.of_nat k))
  = "0"%char :: "."%char
      :: repeat "0"%char (k - length (numeral c)) ++ numeral c.
Proof.
  intros Hk Hz. unfold to_chars. simpl sign_of. cbv iota.
  set (L := numeral c) in *. cbv zeta.
  destruct (Z.leb_spec (- Z.of_nat k) 0) as [_|]; [|lia].
  destruct (Z.ltb_spec (-6) (- Z.of_nat k + Z.of_nat (length L))) as [_|];
    [|lia].
  simpl andb. cbv iota.
  destruct (Z.leb_spec (- Z.of_nat k + Z.of_nat (length L)) 0); [|lia].
  rewrite Z.eqb_refl. unfold zeros.
  replace (Z.to_nat (- (- Z.of_nat k + Z.of_nat (length L))))
    with (k - length L)%nat by lia.
  simpl. by rewrite app_nil_r.
Qed.

Lemma int_of_digits_snoc cs x :
  int_of_digits (cs ++ [x]) = (10 * int_of_digits cs + digit_val x)%N.
Proof. unfold int_of_digits. rewrite List.map_app. apply value_snoc. Qed.

(** The coefficient of a canonical string with fractional digits does
    not end in a zero. *)
Lemma canonical_last ip fp :
  forallb is_digit fp = true -> is_canonical ip fp = true ->
  length fp = 0%nat \/ (int_of_digits (ip ++ fp) mod 10 <> 0)%N.
Proof.
  intros Hfp Hcan. unfold is_canonical in Hcan.
  apply andb_true_iff in Hcan as [_ Hlast].
  destruct (rev fp) as [|x r] eqn:Hrev.
  - left. apply (f_equal (@length ascii)) in Hrev.
    by rewrite length_rev in Hrev.
  - right. apply (f_equal (@rev ascii)) in Hrev.
    rewrite rev_involutive in Hrev. simpl in Hrev. subst fp.
    rewrite app_assoc, int_of_digits_snoc.
    rewrite forallb_app in Hfp. apply andb_true_iff in Hfp as [_ Hx].
    simpl in Hx. rewrite andb_true_r in Hx.
    destruct (digit_facts x Hx) as (_ & _ & _ & _ & _ & _ & Hlt & Hiff).
    rewrite N.add_comm, N.mul_comm, N.Div0.mod_add, N.mod_small by done.
    intros H0. apply Hiff in H0. by rewrite H0 in Hlast.
Qed.

Lemma canonical_head ip fp :
  is_canonical ip fp = true ->
  (exists i ip', ip = i :: ip' /\ is_zero_char i = false) \/
  ip = ["0"%char].
Proof.
  unfold is_canonical. intros H. apply andb_true_iff in H as [H _].
  destruct ip as [|i [|i' ip']]; [done| |].
  - destruct (is_zero_char i) eqn:Hi.
    + right. by apply Ascii.eqb_eq in Hi as ->.
    + left. by exists i, [].
  - left. exists i, (i' :: ip'). split; [done|].
    by apply negb_true_iff in H.
Qed.

(** The amount of a canonical string is printed as that string, unless it
    lies between 0.0000001 and 0.0000009. *)
Lemma from_xdr_amount_canonical ip fp :
  is_amount ip fp = true -> is_canonical ip fp = true ->
  (scaled ip fp = 0 \/ 10 <= scaled ip fp)%N ->
  Operation.from_xdr_amount (Z.of_N (scaled ip fp)) = Ok (plain ip fp).
Proof.
  intros Ham Hcan Hv.
  apply is_amount_inv in Ham as (Hne & Hip & Hfp & Hk & Hmax).
  pose proof (canonical_last ip fp Hfp Hcan) as Hlast.
  pose proof (pow10_pos (7 - length fp)) as Hp.
  unfold scaled in *.
  destruct (canonical_head ip fp Hcan) as [(i & ip' & -> & Hi) | ->].
  - (* the integer part does not start with a zero *)
    assert (Hd : forallb is_digit (i :: ip' ++ fp) = true).
    { rewrite app_comm_cons, forallb_app. by rewrite Hip, Hfp. }
    destruct (numeral_of_digits i (ip' ++ fp) Hd Hi) as [Hnum Hc].
    rewrite <- app_comm_cons in *.
    unfold Operation.from_xdr_amount.
    rewrite truediv_ONE, bind_ok; [|done|done|lia|].
    2: { destruct Hlast as [H0|H0]; [by left|by right]. }
    unfold to_string, plain. do 2 f_equal.
    rewrite to_chars_point; rewrite Hnum.
    2: { simpl. rewrite length_app. lia. }
    unfold plain_chars. destruct fp as [|f fp].
    + simpl. by rewrite !app_nil_r.
    + simpl length. rewrite length_app.
      replace (S (length ip' + length (f :: fp)) - S (length fp))%nat
        with (length (i :: ip')) by (simpl; lia).
      rewrite (app_comm_cons ip' (f :: fp) i).
      by rewrite take_app_length, drop_app_length.
  - (* the integer part is 0 *)
    change (int_of_digits (["0"%char] ++ fp)) with (int_of_digits fp) in *.
    destruct (rev fp) as [|x r] eqn:Hrev.
    + assert (fp = []) as ->.
      { apply (f_equal (@rev ascii)) in Hrev.
        by rewrite rev_involutive in Hrev. }
      by vm_compute.
    + unfold is_canonical in Hcan. rewrite Hrev in Hcan.
      simpl in Hcan. apply negb_true_iff in Hcan.
      destruct (leading_zeros fp x r Hfp Hrev Hcan)
        as (j & i & cs & -> & Hi & Hd).
      rewrite int_of_digits_zeros in *.
      destruct (numeral_of_digits i cs Hd Hi) as [Hnum Hc].
      rewrite length_app, repeat_length in *. simpl length in *.
      assert (Hj : (j <= 5)%nat).
      { destruct (decide (j <= 5)%nat) as [|Hj]; [done|exfalso].
        assert (j = 6%nat /\ cs = []) as [-> ->].
        { destruct cs; simpl in Hk; [|lia]. split; [lia|done]. }
        assert (Hi' : is_digit i = true).
        { simpl in Hd. by rewrite andb_true_r in Hd. }
        destruct (digit_facts i Hi') as (_ & _ & _ & _ & _ & _ & Hlt & _).
        change (int_of_digits [i]) with (digit_val i) in *.
        simpl in Hv. lia. }
      unfold Operation.from_xdr_amount.
      rewrite truediv_ONE, bind_ok; [|lia|done|lia|].
      2: { destruct Hlast as [H0|H0]; [lia|by right]. }
      unfold to_string, plain. do 2 f_equal.
      rewrite to_chars_fraction; rewrite Hnum; simpl length; [|lia|lia].
      replace (j + S (length cs) - S (length cs))%nat with j by lia.
      unfold plain_chars. simpl.
      by destruct (repeat "0"%char j ++ i :: cs) eqn:E;
        [destruct (repeat "0"%char j)|].
Qed.

(** C4, as amended: for a canonical decimal string (no sign, no exponent,
    integer part [0] or without a leading zero, no trailing zero in the
    fractional part) with at most 7 fractional digits, whose value is 0
    or lies between 0.000001 and 922337203685.4775807,
    [from_xdr_amount(to_xdr_amount(s))] is [s]. *)
Theorem amount_roundtrip_canonical ip fp :
  is_amount ip fp = true -> is_canonical ip fp = true ->
  (scaled ip fp = 0 \/ 10 <= scaled ip fp)%N ->
  amount_roundtrip (plain ip fp) = Ok (plain ip fp).
Proof.
  intros Ham Hcan Hv. unfold amount_roundtrip.
  rewrite to_xdr_amount_plain, bind_ok by done.
  by apply from_xdr_amount_canonical.
Qed.

End StringFacts.

(** ** The amount codec on given strings *)

(** C4, as stated, fails: ["1.50"] is a decimal string with two
    fractional digits and a value in range, and it comes back as
    ["1.5"]. *)
Lemma amount_roundtrip_not_identity :
  ~ (forall ip fp,
       is_amount ip fp = true ->
       amount_roundtrip (plain ip fp) = Ok (plain ip fp)).
Proof.
  intros H.
  specialize (H (Dec.chars "1") (Dec.chars "50") eq_refl).
  vm_compute in H. discriminate H.
Qed.

Example amount_roundtrip_trailing_zero :
  amount_roundtrip "1.50" = Ok "1.5"%string.
Proof. by vm_compute. Qed.

(** The smallest amounts come back in scientific notation. *)
Example amount_roundtrip_tiny :
  amount_roundtrip "0.0000001" = Ok "1E-7"%string.
Proof. by vm_compute. Qed.

Lemma amount_roundtrip_canonical_witness :
  is_amount (Dec.chars "10") (Dec.chars "5") = true /\
  is_canonical (Dec.chars "10") (Dec.chars "5") = true /\
  amount_roundtrip "10.5" = Ok "10.5"%string.
Proof.
  split; [reflexivity|]. split; [reflexivity|].
  apply (amount_roundtrip_canonical (Dec.chars "10") (Dec.chars "5"));
    [reflexivity|reflexivity|].
  right. vm_compute. discriminate.
Defined.

(** C5, on the code: a value with 28 fractional digits is not rejected.
    The product with [10^7] is rounded to the 28 digits of the default
    context before [to_integral_exact] looks for a fractional part, and
    the amount of 1 is returned. *)
Theorem to_xdr_amount_rounds_long_fraction :
  Operation.to_xdr_amount
    (Operation.ArgStr "1.0000000000000000000000000001")
  = Ok 10000000.
Proof. by vm_compute. Qed.

Example to_xdr_amount_eight_digits :
  Operation.to_xdr_amount (Operation.ArgStr "1.23456789")
  = Raise (SdkValueError
             "Value must have at most 7 digits after the decimal.").
Proof. by vm_compute. Qed.

Example to_xdr_amount_negative :
  Operation.to_xdr_amount (Operation.ArgStr "-1")
  = Raise (SdkValueError
      "Value must represent a positive number and the max valid value is 922337203685.4775807.").
Proof. by vm_compute. Qed.

Example to_xdr_amount_overflow :
  Operation.to_xdr_amount (Operation.ArgStr "922337203685.4775808")
  = Raise (SdkValueError
      "Value must represent a positive number and the max valid value is 922337203685.4775807.").
Proof. by vm_compute. Qed.

Example to_xdr_amount_max :
  Operation.to_xdr_amount (Operation.ArgStr "922337203685.4775807")
  = Ok 9223372036854775807.
Proof. by vm_compute. Qed.

(** ** The sample data *)

Lemma sample_has_destination :
  Forall (Server.has_destination 1 8 2 13)
    (Transaction.operations Sample.tx_payments).
Proof. repeat constructor; intros _; by eexists. Defined.

Lemma memo_required_destinations_exact_witness :
  Forall (Server.has_destination 1 8 2 13)
    (Transaction.operations Sample.tx_payments) /\
  snd (Server.__get_check_memo_required_destinations 1 8 2 13
         Sample.tx_payments) = None.
Proof.
  split; [exact sample_has_destination|].
  exact (proj1 (memo_required_destinations_exact 1 8 2 13
                  Sample.tx_payments sample_has_destination)).
Defined.

Lemma memo_required_destinations_dedup_witness :
  Forall (Server.has_destination 1 8 2 13)
    (Transaction.operations Sample.tx_payments) /\
  NoDup (map snd (fst (Server.__get_check_memo_required_destinations 1 8 2 13
                         Sample.tx_payments))).
Proof.
  split; [exact sample_has_destination|].
  exact (proj1 (memo_required_destinations_dedup 1 8 2 13
                  Sample.tx_payments sample_has_destination)).
Defined.

Example sample_destinations :
  Server.__get_check_memo_required_destinations 1 8 2 13 Sample.tx_payments
  = ([(0%nat, "GB"%string); (3%nat, "GD"%string)], None).
Proof. reflexivity. Qed.


(** On the sample the call stops at the unbound name and leaves the
    store as it is. *)
Example sample_signature_base :
  TransactionEnvelope.signature_base (L := Sample.lib) []
    Sample.envelope Sample.store_v0
  = (Raise (NameError "Xdr"), Sample.store_v0).
Proof. reflexivity. Qed.

Lemma to_xdr_v1_raises_witness :
  Sample.store_v1 !! 1%positive = Some Sample.tx_v1 /\
  Transaction.v1 Sample.tx_v1 = true /\
  exists e,
    TransactionEnvelope.to_xdr (L := Sample.lib) Sample.envelope
      Sample.store_v1 = (Raise e, Sample.store_v1).
Proof.
  split; [reflexivity|]. split; [reflexivity|].
  exact (to_xdr_v1_raises (L := Sample.lib) Sample.envelope Sample.store_v1
           Sample.tx_v1 eq_refl eq_refl).
Defined.

Example sample_to_xdr_v1 :
  fst (TransactionEnvelope.to_xdr (L := Sample.lib) Sample.envelope
         Sample.store_v1)
  = Raise (NameError "source_account").
Proof. by vm_compute. Qed.

(** A v0 transaction is not encoded either: its branch of
    [Transaction.to_xdr_object] reaches the unbound name [Xdr]. *)
Example sample_to_xdr_v0 :
  TransactionEnvelope.to_xdr (L := Sample.lib) Sample.envelope
    Sample.store_v0
  = (Raise (NameError "Xdr"), Sample.store_v0).
Proof. reflexivity. Qed.

Example sample_from_xdr_object_v0 :
  TransactionEnvelope.from_xdr_object (L := Sample.lib) []
    (Sample.xdr_envelope 0) "Test SDF Network" Sample.store_v0
  = (Raise (NameError "Xdr"), Sample.store_v0).
Proof. reflexivity. Qed.

(** Signing the sample envelope twice: both calls raise NameError. *)
Example sample_sign_twice :
  let sign :=
    BaseTransactionEnvelope.sign (L := Sample.lib) [] Sample.sha256
      Sample.ed25519_sign Sample.keypair Sample.envelope in
  sign Sample.store_v0 = (Raise (NameError "Xdr"), Sample.store_v0) /\
  sign (snd (sign Sample.store_v0))
  = (Raise (NameError "Xdr"), Sample.store_v0).
Proof. split; reflexivity. Qed.

(** * Further properties of the amount codec *)

Section AmountFacts.
Import Dec.

(** X1: Whatever [to_xdr_amount] returns fits a non-negative signed 64-bit
    integer. *)
Theorem to_xdr_amount_in_range value n :
  Operation.to_xdr_amount value = Ok n ->
  0 <= n <= Operation.INT64_MAX.
Proof.
  unfold Operation.to_xdr_amount. intros H.
  assert (Hrange : forall m : result Z,
    (let* amount := m in
     if (amount <? 0) || (Operation.INT64_MAX <? amount)
     then Raise (SdkValueError
       "Value must represent a positive number and the max valid value is 922337203685.4775807.")
     else Ok amount) = Ok n -> 0 <= n <= Operation.INT64_MAX).
  { intros m Hm. apply bind_Ok in Hm as (a & _ & Hm).
    destruct (Z.ltb_spec a 0); [discriminate|].
    destruct (Z.ltb_spec Operation.INT64_MAX a); [discriminate|].
    simpl in Hm. injection Hm as <-. lia. }
  destruct value; [by eapply Hrange|by eapply Hrange|discriminate].
Qed.

Lemma to_xdr_amount_in_range_witness :
  Operation.to_xdr_amount (Operation.ArgStr "1.5") = Ok 15000000 /\
  0 <= 15000000 <= Operation.INT64_MAX.
Proof.
  split; [by vm_compute|].
  apply (to_xdr_amount_in_range (Operation.ArgStr "1.5")). by vm_compute.
Defined.

(** [str(n)] read back as a number is [n]. *)
Lemma value_digits n : value (digits n) = n.
Proof.
  assert (H : forall m n, (N.to_nat n < m)%nat -> value (digits n) = n).
  { clear n. induction m as [|m IH]; intros n Hn; [lia|].
    destruct (N.lt_ge_cases n 10) as [Hs|Hl].
    - by rewrite digits_small.
    - rewrite digits_step, value_snoc by done.
      rewrite IH.
      + pose proof (N.div_mod n 10%N). lia.
      + assert (n / 10 < n)%N by (apply N.div_lt; lia). lia. }
  by apply (H (S (N.to_nat n))); lia.
Qed.

Lemma digits_lt10 n : Forall (fun d => (d < 10)%N) (digits n).
Proof.
  assert (H : forall m n, (N.to_nat n < m)%nat ->
                          Forall (fun d => (d < 10)%N) (digits n)).
  { clear n. induction m as [|m IH]; intros n Hn; [lia|].
    destruct (N.lt_ge_cases n 10) as [Hs|Hl].
    - rewrite digits_small by done. by constructor.
    - rewrite digits_step by done. apply Forall_app. split.
      + apply IH. assert (n / 10 < n)%N by (apply N.div_lt; lia). lia.
      + constructor; [|done]. apply N.mod_lt. lia. }
  by apply (H (S (N.to_nat n))); lia.
Qed.

Lemma digit_char_facts d :
  (d < 10)%N -> is_digit (digit_char d) = true /\ digit_val (digit_char d) = d.
Proof.
  intros H.
  assert (exists k : nat, d = N.of_nat k /\ (k < 10)%nat) as (k & -> & Hk)
    by (exists (N.to_nat d); lia).
  do 10 (destruct k as [|k]; [by vm_compute|]). lia.
Qed.

Lemma numeral_digits n :
  forallb is_digit (numeral n) = true /\ int_of_digits (numeral n) = n /\
  numeral n <> [].
Proof.
  unfold numeral, int_of_digits.
  pose proof (digits_lt10 n) as Hall.
  split_and!.
  - induction Hall as [|d l Hd _ IH]; [done|]. simpl.
    by rewrite (proj1 (digit_char_facts d Hd)), IH.
  - rewrite <- (value_digits n) at 2. f_equal.
    induction Hall as [|d l Hd _ IH]; [done|]. simpl.
    by rewrite (proj2 (digit_char_facts d Hd)), IH.
  - pose proof (length_digits_gt n 0) as Hlen.
    destruct (digits n) eqn:E; [|done].
    destruct (N.eq_dec n 0%N) as [->|Hn]; [by vm_compute in E|].
    simpl in Hlen. lia.
Qed.

(** A positive amount is a coefficient without a trailing zero times a
    power of ten, or a multiple of [10^7]. *)
Lemma amount_decompose (m : nat) : forall n,
  (1 <= n)%N ->
  exists c (j : nat),
    (j <= m)%nat /\ (n = c * 10 ^ N.of_nat j)%N /\ (1 <= c)%N /\
    (j = m \/ (c mod 10 <> 0)%N).
Proof.
  induction m as [|m IH]; intros n Hn.
  - exists n, 0%nat. split_and!; [lia|simpl; lia|done|by left].
  - destruct (N.eq_dec (n mod 10)%N 0%N) as [Hz|Hnz].
    + assert (n = 10 * (n / 10))%N as Hdiv.
      { pose proof (N.div_mod n 10%N). lia. }
      destruct (IH (n / 10)%N) as (c & j & Hj & Hc & Hc1 & Hlast); [lia|].
      exists c, (S j). split_and!; [lia| |done|].
      * rewrite Nat2N.inj_succ, N.pow_succ_r'. lia.
      * destruct Hlast as [->|H]; [by left|by right].
    + exists n, 0%nat. split_and!; [lia|simpl; lia|done|by right].
Qed.

Lemma is_amount_intro ip fp :
  ip <> [] -> forallb is_digit ip = true -> forallb is_digit fp = true ->
  (length fp <= 7)%nat -> (scaled ip fp <= 9223372036854775807)%N ->
  is_amount ip fp = true.
Proof.
  intros Hne Hip Hfp Hk Hmax. unfold is_amount.
  rewrite Hip, Hfp. destruct ip; [done|]. simpl.
  apply andb_true_iff. split; [by apply Nat.leb_le|by apply N.leb_le].
Qed.

Lemma forallb_zeros j : forallb is_digit (repeat "0"%char j) = true.
Proof. induction j as [|j IH]; [done|]. simpl. by rewrite IH. Qed.

(** What [str] prints for a quotient by [10^7] that is at least
    [0.000001] is a plain decimal string denoting the same amount. *)
Lemma printed_amount c (k : nat) :
  (1 <= c)%N -> (k <= 7)%nat ->
  (10 <= c * 10 ^ N.of_nat (7 - k))%N ->
  (c * 10 ^ N.of_nat (7 - k) <= 9223372036854775807)%N ->
  exists ip fp,
    to_chars (Finite false c (- Z.of_nat k)) = plain_chars ip fp /\
    is_amount ip fp = true /\
    scaled ip fp = (c * 10 ^ N.of_nat (7 - k))%N.
Proof.
  intros Hc Hk Hten Hmax.
  destruct (numeral_digits c) as (Hdig & Hval & Hne).
  set (L := numeral c) in *.
  destruct (decide (k < length L)%nat) as [Hlt|Hge].
  - rewrite to_chars_point by done. fold L.
    destruct k as [|k].
    + exists L, []. unfold scaled, plain_chars. rewrite !app_nil_r.
      split; [done|]. rewrite Hval. split; [|done].
      apply is_amount_intro; [done|done|done|simpl; lia|].
      unfold scaled. by rewrite app_nil_r, Hval.
    + set (ip := firstn (length L - S k) L).
      set (fp := skipn (length L - S k) L).
      assert (Hcat : ip ++ fp = L) by apply firstn_skipn.
      assert (Hlen : length fp = S k).
      { unfold fp. rewrite length_skipn. lia. }
      assert (Hlenip : length ip = (length L - S k)%nat).
      { unfold ip. rewrite length_firstn. lia. }
      assert (Hall : forallb is_digit ip = true /\ forallb is_digit fp = true).
      { rewrite <- Hcat, forallb_app in Hdig. by apply andb_true_iff. }
      exists ip, fp. unfold scaled. rewrite Hcat, Hval, Hlen.
      split_and!; [|apply is_amount_intro|done].
      * unfold plain_chars. by destruct fp.
      * destruct ip; [simpl in Hlenip; lia|done].
      * apply Hall.
      * apply Hall.
      * lia.
      * unfold scaled. by rewrite Hcat, Hval, Hlen.
  - assert (Hz : (k - length L <= 5)%nat).
    { destruct (decide (k - length L <= 5)%nat) as [|Hbig]; [done|exfalso].
      assert (length L <> 0)%nat by (by destruct L).
      assert (k = 7 /\ length L = 1)%nat as [-> Hone] by lia.
      destruct (N.lt_ge_cases c 10) as [Hs|Hl].
      - simpl in Hten. lia.
      - pose proof (length_digits_gt c 1 Hl) as Hgt.
        unfold L, numeral in Hone. rewrite length_map in Hone. lia. }
    rewrite to_chars_fraction by (fold L; lia). fold L.
    exists ["0"%char], (repeat "0"%char (k - length L) ++ L).
    assert (Hlen : length (repeat "0"%char (k - length L) ++ L) = k).
    { rewrite length_app, repeat_length. lia. }
    assert (Hv : int_of_digits
                   (["0"%char] ++ repeat "0"%char (k - length L) ++ L) = c).
    { change (int_of_digits
                (["0"%char] ++ repeat "0"%char (k - length L) ++ L))
        with (int_of_digits (repeat "0"%char (k - length L) ++ L)).
      by rewrite int_of_digits_zeros. }
    unfold scaled. rewrite Hv, Hlen.
    split_and!; [|apply is_amount_intro|done].
    + unfold plain_chars. simpl.
      destruct (repeat "0"%char (k - length L) ++ L) eqn:E; [|done].
      apply app_eq_nil in E as [_ E]. by rewrite E in Hne.
    + done.
    + done.
    + by rewrite forallb_app, forallb_zeros, Hdig.
    + lia.
    + unfold scaled. by rewrite Hv, Hlen.
Qed.

Lemma from_xdr_amount_decodes n :
  0 <= n <= Operation.INT64_MAX ->
  (let* s := Operation.from_xdr_amount n in
   Operation.to_xdr_amount (Operation.ArgStr s)) = Ok n.
Proof.
  unfold Operation.INT64_MAX. intros Hn.
  assert (n < 10 \/ 10 <= n) as [Hsmall|Hbig] by lia.
  - assert (exists k : nat, n = Z.of_nat k /\ (k < 10)%nat) as (k & -> & Hk)
      by (exists (Z.to_nat n); lia).
    do 10 (destruct k as [|k]; [by vm_compute|]). lia.
  - assert (exists v, n = Z.of_N v) as [v ->] by (exists (Z.to_N n); lia).
    destruct (amount_decompose 7 v) as (c & j & Hj & Hv & Hc & Hlast); [lia|].
    set (k := (7 - j)%nat).
    assert (Hjk : j = (7 - k)%nat) by lia.
    rewrite Hjk in Hv.
    unfold Operation.from_xdr_amount. rewrite Hv.
    rewrite truediv_ONE, bind_ok; [|lia|done|lia|].
    2: { destruct Hlast as [->|H]; [by left|by right]. }
    destruct (printed_amount c k) as (ip & fp & Hprint & Ham & Hsc);
      [done|lia|lia|lia|].
    rewrite bind_ok. unfold to_string. rewrite Hprint.
    change (string_of_list_ascii (plain_chars ip fp)) with (plain ip fp).
    rewrite to_xdr_amount_plain by done. by rewrite Hsc.
Qed.

(** X2: Every amount in the signed 64-bit range comes back from its decimal
    string: [to_xdr_amount(from_xdr_amount(n)) == n], also for the amounts
    that are printed in scientific notation. *)
Theorem to_xdr_amount_from_xdr_amount n :
  0 <= n <= Operation.INT64_MAX ->
  (let* s := Operation.from_xdr_amount n in
   Operation.to_xdr_amount (Operation.ArgStr s)) = Ok n.
Proof. apply from_xdr_amount_decodes. Qed.

Lemma to_xdr_amount_from_xdr_amount_witness :
  (let* s := Operation.from_xdr_amount 25123456 in
   Operation.to_xdr_amount (Operation.ArgStr s)) = Ok 25123456.
Proof.
  apply (to_xdr_amount_from_xdr_amount 25123456).
  unfold Operation.INT64_MAX. lia.
Defined.

(** X3: [from_xdr_amount] returns a string for every amount in range, and
    distinct amounts get distinct strings. *)
Theorem from_xdr_amount_injective n m :
  0 <= n <= Operation.INT64_MAX -> 0 <= m <= Operation.INT64_MAX ->
  exists s t,
    Operation.from_xdr_amount n = Ok s /\
    Operation.from_xdr_amount m = Ok t /\
    (s = t -> n = m).
Proof.
  intros Hn Hm.
  pose proof (from_xdr_amount_decodes n Hn) as Dn.
  pose proof (from_xdr_amount_decodes m Hm) as Dm.
  apply bind_Ok in Dn as (s & Hs & Dn).
  apply bind_Ok in Dm as (t & Ht & Dm).
  exists s, t. split_and!; [done|done|].
  intros ->. congruence.
Qed.

Lemma from_xdr_amount_injective_witness :
  exists s t,
    Operation.from_xdr_amount 1 = Ok s /\
    Operation.from_xdr_amount 10 = Ok t /\
    (s = t -> 1 = 10).
Proof.
  apply (from_xdr_amount_injective 1 10); unfold Operation.INT64_MAX; lia.
Defined.

Lemma mul_ONE_signed s c e :
  (c * 10 ^ 7 < 10 ^ 28)%N -> Etiny <= e <= 0 ->
  mul (Finite s c e) Operation._ONE = Ok (Finite s (c * 10 ^ 7) e).
Proof.
  intros Hc He. unfold mul, Operation._ONE, of_int. simpl.
  rewrite Z.add_0_r, xorb_false_r. change (Pos.to_nat 1) with 1%nat.
  by apply fix_finite_id.
Qed.

(** [to_integral_exact] under the trapped Inexact signal: the quotient by
    [10^k] when no non-zero digit is dropped, the signal otherwise. *)
Lemma to_integral_exact_spec s c (k : nat) :
  to_integral_exact (Finite s c (- Z.of_nat k))
  = if (c mod 10 ^ N.of_nat k =? 0)%N
    then Ok (Finite s (c / 10 ^ N.of_nat k) 0)
    else Raise DecimalInexact.
Proof.
  pose proof (pow10_pos k) as Hp.
  unfold to_integral_exact.
  destruct (Z.leb_spec 0 (- Z.of_nat k)) as [H0|H0].
  - assert (k = 0)%nat as -> by lia. simpl.
    by rewrite N.mod_1_r, N.div_1_r.
  - destruct (N.eqb_spec c 0) as [->|Hnz].
    + by rewrite N.Div0.mod_0_l, N.Div0.div_0_l.
    + destruct (Z.ltb_spec (ndigits c + - Z.of_nat k) 0) as [Hlt|Hge].
      * assert (c < 10 ^ N.of_nat k)%N as Hsmall.
        { destruct (N.lt_ge_cases c (10 ^ N.of_nat k)) as [|Hge]; [done|].
          pose proof (ndigits_gt c k Hge). lia. }
        rewrite N.mod_small by done.
        destruct (N.eqb_spec c 0); [done|]. by vm_compute.
      * unfold round_half_even. rewrite Z.opp_involutive, pow10_nat.
        destruct (N.eqb_spec (c mod 10 ^ N.of_nat k) 0) as [Hz|Hz]; simpl.
        -- rewrite Hz. simpl.
           destruct (10 ^ N.of_nat k)%N eqn:Hpk; [lia|done].
        -- done.
Qed.

Lemma to_int_signed s v :
  to_int (Finite s v 0) = Ok (if s then - Z.of_N v else Z.of_N v).
Proof.
  unfold to_int. simpl. unfold pow10. simpl. by rewrite N.mul_1_r.
Qed.

Lemma to_xdr_amount_finite s c (k : nat) :
  (c < 10 ^ 21)%N -> Z.of_nat k <= 1000026 ->
  Operation.to_xdr_amount (Operation.ArgDecimal (Finite s c (- Z.of_nat k)))
  = if (c * 10 ^ 7 mod 10 ^ N.of_nat k =? 0)%N then
      let v := (c * 10 ^ 7 / 10 ^ N.of_nat k)%N in
      if (s && (0 <? v)%N) || (9223372036854775807 <? v)%N then
        Raise (SdkValueError
          "Value must represent a positive number and the max valid value is 922337203685.4775807.")
      else Ok (Z.of_N v)
    else
      Raise (SdkValueError
        "Value must have at most 7 digits after the decimal.").
Proof.
  intros Hc Hk.
  unfold Operation.to_xdr_amount, Operation.Decimal.
  rewrite bind_ok, mul_ONE_signed, bind_ok;
    [|change (10 ^ 7)%N with 10000000%N;
      change (10 ^ 28)%N with 10000000000000000000000000000%N;
      change (10 ^ 21)%N with 1000000000000000000000%N in Hc; lia
     |unfold Etiny, Emin, prec; lia].
  rewrite to_integral_exact_spec.
  destruct (N.eqb_spec (c * 10 ^ 7 mod 10 ^ N.of_nat k) 0) as [Hz|Hz].
  - rewrite bind_ok, to_int_signed. unfold try_except. rewrite bind_ok.
    cbv zeta. set (v := (c * 10 ^ 7 / 10 ^ N.of_nat k)%N).
    unfold Operation.INT64_MAX.
    destruct s; simpl andb.
    + destruct (N.ltb_spec 0 v) as [Hv|Hv].
      * destruct (Z.ltb_spec (- Z.of_N v) 0); [done|lia].
      * assert (v = 0%N) as -> by lia. done.
    + destruct (Z.ltb_spec (Z.of_N v) 0); [lia|]. simpl orb.
      destruct (N.ltb_spec 9223372036854775807 v);
        destruct (Z.ltb_spec 9223372036854775807 (Z.of_N v)); (done || lia).
  - done.
Qed.

(** X4: The amount of a finite [Decimal] with at most 21 digits and a
    non-positive exponent [-k]: [c * 10^7 / 10^k] when that is an integer
    in range, the digits error when it is no integer, the range error
    otherwise.  Nothing is rounded. *)
Theorem to_xdr_amount_decimal s c (k : nat) :
  (c < 10 ^ 21)%N -> Z.of_nat k <= 1000026 ->
  Operation.to_xdr_amount (Operation.ArgDecimal (Finite s c (- Z.of_nat k)))
  = if (c * 10 ^ 7 mod 10 ^ N.of_nat k =? 0)%N then
      let v := (c * 10 ^ 7 / 10 ^ N.of_nat k)%N in
      if (s && (0 <? v)%N) || (9223372036854775807 <? v)%N then
        Raise (SdkValueError
          "Value must represent a positive number and the max valid value is 922337203685.4775807.")
      else Ok (Z.of_N v)
    else
      Raise (SdkValueError
        "Value must have at most 7 digits after the decimal.").
Proof. apply to_xdr_amount_finite. Qed.

Lemma int_of_digits_bound cs :
  forallb is_digit cs = true ->
  (int_of_digits cs < 10 ^ N.of_nat (length cs))%N.
Proof.
  induction cs as [|x cs IH] using rev_ind; intros Hd.
  - by vm_compute.
  - rewrite forallb_app in Hd. apply andb_true_iff in Hd as [Hcs Hx].
    simpl in Hx. rewrite andb_true_r in Hx.
    destruct (digit_facts x Hx) as (_ & _ & _ & _ & _ & _ & Hlt & _).
    specialize (IH Hcs).
    rewrite int_of_digits_snoc, length_app. simpl length.
    replace (length cs + 1)%nat with (S (length cs)) by lia.
    rewrite Nat2N.inj_succ, N.pow_succ_r'. lia.
Qed.

Lemma int_of_digits_21 cs :
  forallb is_digit cs = true -> (length cs <= 21)%nat ->
  (int_of_digits cs < 10 ^ 21)%N.
Proof.
  intros Hd Hlen. pose proof (int_of_digits_bound cs Hd) as Hb.
  assert (10 ^ N.of_nat (length cs) <= 10 ^ 21)%N; [|lia].
  apply N.pow_le_mono_r; lia.
Qed.

(** X5: A decimal string of at most 21 digits with more than 7 fractional
    digits, the last of which is not a zero, is rejected. *)
Theorem to_xdr_amount_too_many_digits ip fp x :
  ip <> [] -> forallb is_digit ip = true ->
  forallb is_digit (fp ++ [x]) = true -> is_zero_char x = false ->
  (7 < length (fp ++ [x]))%nat -> (length (ip ++ fp ++ [x]) <= 21)%nat ->
  Operation.to_xdr_amount (Operation.ArgStr (plain ip (fp ++ [x])))
  = Raise (SdkValueError
             "Value must have at most 7 digits after the decimal.").
Proof.
  intros Hne Hip Hfp Hx Hlen Htot.
  assert (Hdx : is_digit x = true).
  { rewrite forallb_app in Hfp. apply andb_true_iff in Hfp as [_ Hfp].
    simpl in Hfp. by rewrite andb_true_r in Hfp. }
  destruct (digit_facts x Hdx) as (_ & _ & _ & _ & _ & _ & Hlt & Hzero).
  assert (Hall : forallb is_digit (ip ++ fp ++ [x]) = true).
  { by rewrite forallb_app, Hip, Hfp. }
  pose proof (int_of_digits_21 _ Hall Htot) as Hc.
  pose proof (to_xdr_amount_finite false _ (length (fp ++ [x])) Hc) as Hdec.
  assert (Hfrac : (length (fp ++ [x]) <= 21)%nat).
  { rewrite !length_app in Htot. rewrite length_app. simpl in *. lia. }
  unfold Operation.to_xdr_amount, Operation.Decimal in *.
  rewrite of_string_plain by done. rewrite Hdec by lia.
  set (c := int_of_digits (ip ++ fp ++ [x])).
  assert (Hlast : (c mod 10 <> 0)%N).
  { unfold c. rewrite app_assoc, int_of_digits_snoc.
    rewrite N.add_comm, N.mul_comm, N.Div0.mod_add, N.mod_small by done.
    intros H0. apply Hzero in H0. congruence. }
  destruct (N.eqb_spec (c * 10 ^ 7 mod 10 ^ N.of_nat (length (fp ++ [x]))) 0)
    as [Hz|]; [|done].
  exfalso. apply Hlast.
  set (k := length (fp ++ [x])) in *.
  replace k with (S (k - 8) + 7)%nat in Hz by lia.
  rewrite pow10_split in Hz. change (N.of_nat 7) with 7%N in Hz.
  rewrite N.Div0.mul_mod_distr_r in Hz.
  assert (Hm : (c mod 10 ^ N.of_nat (S (k - 8)) = 0)%N) by lia.
  rewrite Nat2N.inj_succ, N.pow_succ_r' in Hm.
  apply N.Lcm0.mod_divide in Hm. apply N.Lcm0.mod_divide.
  etransitivity; [|exact Hm]. by apply N.divide_mul_l.
Qed.

(** X6: A decimal string of at most 21 digits with at most 7 fractional
    digits whose value exceeds 922337203685.4775807 is rejected. *)
Theorem to_xdr_amount_too_large ip fp :
  ip <> [] -> forallb is_digit ip = true -> forallb is_digit fp = true ->
  (length fp <= 7)%nat -> (length (ip ++ fp) <= 21)%nat ->
  (9223372036854775807 < scaled ip fp)%N ->
  Operation.to_xdr_amount (Operation.ArgStr (plain ip fp))
  = Raise (SdkValueError
      "Value must represent a positive number and the max valid value is 922337203685.4775807.").
Proof.
  intros Hne Hip Hfp Hlen Htot Hbig.
  assert (Hall : forallb is_digit (ip ++ fp) = true).
  { by rewrite forallb_app, Hip, Hfp. }
  pose proof (int_of_digits_21 _ Hall Htot) as Hc.
  pose proof (to_xdr_amount_finite false _ (length fp) Hc) as Hdec.
  unfold Operation.to_xdr_amount, Operation.Decimal in *.
  rewrite of_string_plain; [|done|done|done|done|lia]. rewrite Hdec by lia.
  unfold scaled in Hbig. set (c := int_of_digits (ip ++ fp)) in *.
  pose proof (pow10_pos (length fp)) as Hp.
  assert (Hsplit : (c * 10 ^ 7 = c * 10 ^ N.of_nat (7 - length fp)
                                 * 10 ^ N.of_nat (length fp))%N).
  { rewrite <- N.mul_assoc, <- pow10_split.
    by replace (7 - length fp + length fp)%nat with 7%nat by lia. }
  rewrite Hsplit, N.Div0.mod_mul, N.div_mul by lia. simpl.
  destruct (N.ltb_spec 9223372036854775807
              (c * 10 ^ N.of_nat (7 - length fp))); [done|lia].
Qed.

Lemma to_xdr_amount_too_many_digits_witness :
  Operation.to_xdr_amount (Operation.ArgStr "0.00000001")
  = Raise (SdkValueError
             "Value must have at most 7 digits after the decimal.").
Proof.
  apply (to_xdr_amount_too_many_digits (chars "0") (chars "0000000") "1"%char);
    [discriminate|reflexivity|reflexivity|reflexivity|simpl; lia|simpl; lia].
Defined.

Lemma to_xdr_amount_too_large_witness :
  Operation.to_xdr_amount (Operation.ArgStr "922337203685.4775808")
  = Raise (SdkValueError
      "Value must represent a positive number and the max valid value is 922337203685.4775807.").
Proof.
  apply (to_xdr_amount_too_large (chars "922337203685") (chars "4775808"));
    [discriminate|reflexivity|reflexivity|simpl; lia|simpl; lia|by vm_compute].
Defined.

Lemma to_xdr_amount_decimal_witness :
  Operation.to_xdr_amount (Operation.ArgDecimal (Finite true 5 (-1)))
  = Raise (SdkValueError
      "Value must represent a positive number and the max valid value is 922337203685.4775807.").
Proof.
  apply (to_xdr_amount_decimal true 5 1); [by vm_compute|lia].
Defined.

End AmountFacts.

(** * Further properties of operations and transactions *)


Section OperationFacts.
Context {L : Lib}.

(** X7: [Operation.from_xdr_object] reads [body.type] of its argument and hands
    the argument to the first subclass, in the order of
    [__subclasses__()], whose type code equals it; later subclasses with
    the same code are never asked.  Without such a subclass it raises
    NotImplementedError, and when [body.type] cannot be read it raises
    what the read raises, whatever the subclasses are. *)
Theorem Operation_from_xdr_object_first_match
    (subclasses : list Operation.subclass) (operation_xdr_object : obj) :
  Operation.from_xdr_object subclasses operation_xdr_object
  = let* body := getattr "body" operation_xdr_object in
    let* ty := getattr "type" body in
    match List.find
            (fun sub_cls => py_eq (OInt (Operation.type_code sub_cls)) ty)
            subclasses with
    | Some sub_cls =>
        Operation.cls_from_xdr_object sub_cls operation_xdr_object
    | None => Raise (NotImplementedError "Operation is not implemented.")
    end.
Proof.
  unfold Operation.from_xdr_object.
  induction subclasses as [|sub_cls rest IH]; simpl; [done|].
  destruct (getattr "body" operation_xdr_object) as [body|e]; [|done].
  rewrite !bind_ok in *.
  destruct (getattr "type" body) as [ty|e]; [|done].
  rewrite !bind_ok in *.
  destruct ty as [|y| | | |]; simpl in *; try done.
  by destruct (Operation.type_code sub_cls =? y).
Qed.

(** X8: Two operations compare equal exactly when they are of the same class
    and both encode, to the same XDR object. *)
Theorem Operation_eq_same_encoding (a b : Operation.t) :
  Operation.__eq__ a b = Ok true <->
  Operation.op_class a = Operation.op_class b /\
  exists x, Operation.to_xdr_object a = Ok x /\
            Operation.to_xdr_object b = Ok x.
Proof. apply Operation_eq_iff. Qed.

(** X9: [Transaction.__eq__] is symmetric on its answers: when [a == b]
    returns, [b == a] returns the same. *)
Theorem Transaction_eq_symmetric (a b : Transaction.t) r :
  Transaction.__eq__ a b = Ok r -> Transaction.__eq__ b a = Ok r.
Proof.
  assert (Hflip : forall (A : Type) `{EqDecision A} (x y : A),
            bool_decide (y = x) = bool_decide (x = y)).
  { intros. apply bool_decide_ext. split; congruence. }
  unfold Transaction.__eq__.
  rewrite (py_eq_sym (Transaction.sequence b)),
    (py_eq_sym (Transaction.fee b)),
    (Hflip _ _ (Transaction.source a)), (Hflip _ _ (Transaction.memo a)),
    (Hflip _ _ (Transaction.time_bounds a)).
  destruct (bool_decide (Transaction.source a = Transaction.source b));
    [|done]. simpl.
  destruct (py_eq (Transaction.sequence a) (Transaction.sequence b));
    [|done]. simpl.
  destruct (py_eq (Transaction.fee a) (Transaction.fee b)); [|done]. simpl.
  intros H. apply bind_Ok in H as (ops & Hops & H).
  by rewrite (operations_eq_sym _ _ _ Hops).
Qed.

(** X10: A transaction whose operations all encode compares equal to
    itself. *)
Theorem Transaction_eq_reflexive (a : Transaction.t) :
  Forall (fun op => is_Ok (Operation.to_xdr_object op) = true)
    (Transaction.operations a) ->
  Transaction.__eq__ a a = Ok true.
Proof.
  intros Hops. unfold Transaction.__eq__.
  rewrite !py_eq_refl, !bool_decide_eq_true_2 by done. simpl.
  by rewrite operations_eq_refl.
Qed.

End OperationFacts.

Lemma Transaction_eq_symmetric_witness :
  @Transaction.__eq__ Sample.lib Sample.tx_v0 Sample.tx_payments = Ok false.
Proof.
  apply (@Transaction_eq_symmetric Sample.lib Sample.tx_payments Sample.tx_v0).
  by vm_compute.
Defined.

Lemma Transaction_eq_reflexive_witness :
  @Transaction.__eq__ Sample.lib Sample.tx_payments Sample.tx_payments
  = Ok true.
Proof.
  apply (@Transaction_eq_reflexive Sample.lib Sample.tx_payments).
  repeat constructor.
Defined.

Section DecodingFacts.
Context {L : Lib} (subclasses : list Operation.subclass).

Lemma from_xdr_object_decoded (tx_xdr_object : obj) (v1 : bool)
    (tx : Transaction.t) :
  Transaction.from_xdr_object subclasses tx_xdr_object v1 = Ok tx ->
  exists key s kp,
    (let* a := getattr "source_account" tx_xdr_object in
     let* a := getattr "account_id" a in
     let* a := getattr "ed25519" a in
     getattr "uint256" a) = Ok key /\
    StrKey_encode_ed25519_public_key key = Ok s /\
    Keypair_from_public_key (KeyStr s) = Ok kp /\
    Transaction.source tx
    = {| account_id := public_key kp; account_id_id := None |} /\
    Transaction.v1 tx = v1.
Proof.
  unfold Transaction.from_xdr_object. intros H.
  apply bind_Ok in H as (_ & _ & H).
  apply bind_Ok in H as (a1 & H1 & H). apply bind_Ok in H as (a2 & H2 & H).
  apply bind_Ok in H as (a3 & H3 & H). apply bind_Ok in H as (key & H4 & H).
  apply bind_Ok in H as (s & Hs & H). apply bind_Ok in H as (kp & Hkp & H).
  bind_inv H. unfold Transaction.__init__ in H. simpl in H.
  injection H as <-.
  exists key, s, kp. rewrite H1, bind_ok, H2, bind_ok, H3, bind_ok.
  by split_and!.
Qed.

(** X11: The source of a decoded transaction is the key pair read from
    [source_account.account_id.ed25519.uint256]: an account without a
    muxed id, under either version flag.  What is read from
    [sourceAccount] or [sourceAccountEd25519] before is not part of the
    result. *)
Theorem Transaction_from_xdr_object_source (tx_xdr_object : obj) (v1 : bool)
    (tx : Transaction.t) :
  Transaction.from_xdr_object subclasses tx_xdr_object v1 = Ok tx ->
  exists key s kp,
    (let* a := getattr "source_account" tx_xdr_object in
     let* a := getattr "account_id" a in
     let* a := getattr "ed25519" a in
     getattr "uint256" a) = Ok key /\
    StrKey_encode_ed25519_public_key key = Ok s /\
    Keypair_from_public_key (KeyStr s) = Ok kp /\
    Transaction.source tx
    = {| account_id := public_key kp; account_id_id := None |} /\
    Transaction.v1 tx = v1.
Proof. apply from_xdr_object_decoded. Qed.

(** X12: No decoding gives a transaction that is equal to one whose
    source carries a muxed id: whenever [Transaction.from_xdr_object]
    returns a transaction, comparing it with such a transaction answers
    [False], in both orders. *)
Theorem Transaction_decoded_never_muxed (tx tx' : Transaction.t)
    (tx_xdr_object : obj) (v1 : bool) :
  is_Some (account_id_id (Transaction.source tx)) ->
  Transaction.from_xdr_object subclasses tx_xdr_object v1 = Ok tx' ->
  Transaction.__eq__ tx tx' = Ok false /\
  Transaction.__eq__ tx' tx = Ok false.
Proof.
  intros [id Hid] H.
  apply from_xdr_object_decoded in H as (_ & _ & kp & _ & _ & _ & Hsrc & _).
  unfold Transaction.__eq__.
  assert (Hne : Transaction.source tx <> Transaction.source tx').
  { rewrite Hsrc. intros Heq. rewrite Heq in Hid. discriminate Hid. }
  rewrite (bool_decide_eq_false_2 (Transaction.source tx = _)) by done.
  by rewrite (bool_decide_eq_false_2 (Transaction.source tx' = _)).
Qed.

End DecodingFacts.

Lemma Transaction_from_xdr_object_source_witness :
  exists key s kp,
    (let* a := getattr "source_account" Sample.xdr_transaction in
     let* a := getattr "account_id" a in
     let* a := getattr "ed25519" a in
     getattr "uint256" a) = Ok key /\
    @StrKey_encode_ed25519_public_key Sample.lib key = Ok s /\
    @Keypair_from_public_key Sample.lib (KeyStr s) = Ok kp /\
    Transaction.source Sample.tx_decoded
    = {| account_id := public_key kp; account_id_id := None |} /\
    Transaction.v1 Sample.tx_decoded = false.
Proof.
  apply (@Transaction_from_xdr_object_source Sample.lib []
           Sample.xdr_transaction false Sample.tx_decoded).
  by vm_compute.
Defined.

Lemma Transaction_decoded_never_muxed_witness :
  @Transaction.__eq__ Sample.lib Sample.tx_muxed Sample.tx_decoded
  = Ok false /\
  @Transaction.__eq__ Sample.lib Sample.tx_decoded Sample.tx_muxed
  = Ok false.
Proof.
  apply (@Transaction_decoded_never_muxed Sample.lib []
           Sample.tx_muxed Sample.tx_decoded Sample.xdr_transaction false).
  - by exists 5.
  - by vm_compute.
Defined.

(** * Further properties of envelopes *)

Section EnvelopeStoreFacts.
Context {L : Lib} (subclasses : list Operation.subclass).

(** X13: Encoding an envelope reads the store and never writes it, whether it
    returns or raises. *)
Theorem envelope_to_xdr_keeps_store (self : TransactionEnvelope.t)
    (h : heap) :
  (TransactionEnvelope.to_xdr_object self h).2 = h /\
  (TransactionEnvelope.to_xdr self h).2 = h.
Proof.
  assert (H : (TransactionEnvelope.to_xdr_object self h).2 = h).
  { unfold TransactionEnvelope.to_xdr_object, TransactionEnvelope.lookup_Xdr,
      bindM, read, lift.
    repeat case_match; by simplify_eq/=. }
  split; [done|].
  unfold TransactionEnvelope.to_xdr, bindM, lift.
  destruct (TransactionEnvelope.to_xdr_object self h) as [[x|e] h'];
    simpl in *; by subst.
Qed.


End EnvelopeStoreFacts.


(** * The memo-required check of the server *)

Section CheckFacts.
Context (PAYMENT ACCOUNT_MERGE : Z).
Context (PATH_PAYMENT_STRICT_RECEIVE PATH_PAYMENT_STRICT_SEND : Z).
Context (MUXED_ACCOUNT_STARTING_LETTER : string).

Local Abbreviation loop :=
  (Server.loop PAYMENT ACCOUNT_MERGE
     PATH_PAYMENT_STRICT_RECEIVE PATH_PAYMENT_STRICT_SEND).
Local Abbreviation pays_to :=
  (Server.pays_to PAYMENT ACCOUNT_MERGE
     PATH_PAYMENT_STRICT_RECEIVE PATH_PAYMENT_STRICT_SEND).
Local Abbreviation muxed :=
  (String.prefix MUXED_ACCOUNT_STARTING_LETTER).
Local Abbreviation check_destinations :=
  (Server.check_destinations MUXED_ACCOUNT_STARTING_LETTER).
Local Abbreviation check :=
  (Server.__check_memo_required_sync PAYMENT ACCOUNT_MERGE
     PATH_PAYMENT_STRICT_RECEIVE PATH_PAYMENT_STRICT_SEND
     MUXED_ACCOUNT_STARTING_LETTER).

(** The answer of [__check_destination_memo] depends on the account
    data only; the index and the destination are passed on to the
    error. *)
Lemma check_destination_memo_cases raw_data :
  (forall i d, Server.__check_destination_memo raw_data i d = Server.Passed)
  \/ (forall i d, Server.__check_destination_memo raw_data i d
                  = Server.AccountRequiresMemoError d i)
  \/ (exists e, forall i d,
        Server.__check_destination_memo raw_data i d = Server.Fails e).
Proof.
  unfold Server.__check_destination_memo.
  destruct raw_data as [| | | | |members]; try (right; right; by eexists).
  destruct (Server.dict_get "data" members) as [[| | | | |data]|];
    try (right; right; by eexists).
  destruct (Server.dict_get _ data) as [[| | |v| |]|]; try by left.
  destruct (String.eqb v "MQ=="); [right|]; by left.
Qed.

Lemma not_flagged_raises call d c :
  call d = Server.CallRaises c -> ~ Server.flagged call d.
Proof. intros Hc (raw & i & Hr & _). congruence. Qed.

Lemma not_flagged_passed call d raw_data i :
  call d = Server.Response raw_data ->
  Server.__check_destination_memo raw_data i d = Server.Passed ->
  ~ Server.flagged call d.
Proof.
  intros Hc Hp (raw & j & Hr & Hf). rewrite Hc in Hr. injection Hr as <-.
  destruct (check_destination_memo_cases raw_data) as [H|[H|[e H]]];
    rewrite H in *; congruence.
Qed.

Lemma pays_to_head op d :
  pays_to op d <->
  Operation.op_type_code op
    ∈ Server.memo_required_operation_code PAYMENT ACCOUNT_MERGE
        PATH_PAYMENT_STRICT_RECEIVE PATH_PAYMENT_STRICT_SEND /\
  exists m, Operation.destination op = Some m /\ account_id m = d.
Proof. unfold Server.pays_to. by rewrite memo_required_codes. Qed.

Lemma check_shift call operation rest (i : nat) (D D' : gset string)
    (o : Server.outcome) (e : option exn) :
  (forall d, pays_to operation d -> d ∉ D -> muxed d = false ->
     ~ Server.flagged call d) ->
  (forall d, d ∉ D -> d ∈ D' -> muxed d = false -> ~ Server.flagged call d) ->
  (forall d, d ∈ D -> d ∈ D') ->
  match o with
  | Server.Passed =>
      e = None ->
      forall k op d, rest !! k = Some op -> pays_to op d -> d ∉ D' ->
        muxed d = false -> ~ Server.flagged call d
  | Server.AccountRequiresMemoError d j =>
      exists op,
        (S i <= j)%nat /\ rest !! (j - S i)%nat = Some op /\ pays_to op d /\
        d ∉ D' /\ muxed d = false /\ Server.flagged call d /\
        forall k op' d', (k < j - S i)%nat -> rest !! k = Some op' ->
          pays_to op' d' -> d' ∉ D' -> muxed d' = false ->
          ~ Server.flagged call d'
  | _ => True
  end ->
  match o with
  | Server.Passed =>
      e = None ->
      forall k op d, (operation :: rest) !! k = Some op -> pays_to op d ->
        d ∉ D -> muxed d = false -> ~ Server.flagged call d
  | Server.AccountRequiresMemoError d j =>
      exists op,
        (i <= j)%nat /\ (operation :: rest) !! (j - i)%nat = Some op /\
        pays_to op d /\
        d ∉ D /\ muxed d = false /\ Server.flagged call d /\
        forall k op' d', (k < j - i)%nat ->
          (operation :: rest) !! k = Some op' ->
          pays_to op' d' -> d' ∉ D -> muxed d' = false ->
          ~ Server.flagged call d'
  | _ => True
  end.
Proof.
  intros Hhead Hnew Hsub. destruct o as [|d j| |]; try done.
  - intros IH He [|k] op d Hk Hp HD Hm; simpl in Hk.
    + injection Hk as <-. by apply Hhead.
    + destruct (decide (d ∈ D')) as [Hin|Hin]; [by apply Hnew|].
      by eapply IH.
  - intros (op & Hij & Hop & Hp & HD & Hm & Hf & Hfirst).
    exists op. replace (j - i)%nat with (S (j - S i)) by lia.
    split_and!; try done; [lia|by auto|].
    intros [|k] op' d' Hk Hk' Hp' HD' Hm'; simpl in Hk'.
    + injection Hk' as <-. by apply Hhead.
    + destruct (decide (d' ∈ D')) as [Hin|Hin]; [by apply Hnew|].
      eapply (Hfirst k); [lia|done..].
Qed.

Lemma check_loop call ops : forall i D,
  match check_destinations call (loop i ops D).1 with
  | Server.Passed =>
      (loop i ops D).2 = None ->
      forall k op d, ops !! k = Some op -> pays_to op d -> d ∉ D ->
        muxed d = false -> ~ Server.flagged call d
  | Server.AccountRequiresMemoError d j =>
      exists op,
        (i <= j)%nat /\ ops !! (j - i)%nat = Some op /\ pays_to op d /\
        d ∉ D /\ muxed d = false /\ Server.flagged call d /\
        forall k op' d', (k < j - i)%nat -> ops !! k = Some op' ->
          pays_to op' d' -> d' ∉ D -> muxed d' = false ->
          ~ Server.flagged call d'
  | _ => True
  end.
Proof.
  induction ops as [|operation rest IH]; intros i D.
  - simpl. intros _ k op d Hk. done.
  - simpl.
    destruct (bool_decide_reflect
      (Operation.op_type_code operation
       ∈ Server.memo_required_operation_code PAYMENT ACCOUNT_MERGE
           PATH_PAYMENT_STRICT_RECEIVE PATH_PAYMENT_STRICT_SEND))
      as [Hcode|Hcode].
    2: { apply check_shift with (D' := D); [|done|done|apply IH].
         intros d Hp. apply pays_to_head in Hp as [? _]. done. }
    destruct (Operation.destination operation) as [m|] eqn:Hdest.
    2: { simpl. discriminate. }
    destruct (bool_decide_reflect (account_id m ∈ D)) as [HD|HD].
    { apply check_shift with (D' := D); [|done|done|apply IH].
      intros d Hp Hd. apply pays_to_head in Hp as [_ (m' & Hm' & <-)].
      congruence. }
    specialize (IH (S i) ({[account_id m]} ∪ D)).
    destruct (loop (S i) rest ({[account_id m]} ∪ D)) as [ys e] eqn:Hloop.
    simpl in *.
    assert (Hhead : forall d, pays_to operation d -> d = account_id m).
    { intros d Hp. apply pays_to_head in Hp as [_ (m' & Hm' & <-)].
      congruence. }
    destruct (muxed (account_id m)) eqn:Hmux.
    { apply check_shift with (D' := {[account_id m]} ∪ D) (e := e);
        [ |  | set_solver | done].
      - intros d Hp _ Hm. rewrite (Hhead d Hp) in Hm. congruence.
      - intros d Hd Hin Hm. assert (d = account_id m) as -> by set_solver.
        congruence. }
    destruct (call (account_id m)) as [raw|c] eqn:Hcall.
    + destruct (check_destination_memo_cases raw) as [H|[H|[e' H]]];
        rewrite H.
      * apply check_shift with (D' := {[account_id m]} ∪ D) (e := e);
          [ |  | set_solver | done].
        -- intros d Hp _ _. rewrite (Hhead d Hp).
           by apply (not_flagged_passed call _ raw 0%nat).
        -- intros d Hd Hin Hm.
           assert (d = account_id m) as -> by set_solver.
           by apply (not_flagged_passed call _ raw 0%nat).
      * exists operation. rewrite Nat.sub_diag. simpl.
        split_and!; try done.
        -- apply pays_to_head. split; [done|]. by exists m.
        -- exists raw, i. by rewrite H.
        -- intros k op' d' Hk. lia.
      * done.
    + destruct (Exceptions.issubclass c Exceptions.NotFoundError); [|done].
      apply check_shift with (D' := {[account_id m]} ∪ D) (e := e);
        [ |  | set_solver | done].
      * intros d Hp _ _. rewrite (Hhead d Hp). by eapply not_flagged_raises.
      * intros d Hd Hin Hm. assert (d = account_id m) as -> by set_solver.
        by eapply not_flagged_raises.
Qed.

(** X15: When the check returns for a transaction without a memo, no
    destination of a payment, path payment or account merge of the
    transaction, other than a muxed one, is an account whose data asks
    for a memo. *)
Theorem check_memo_required_passed call (transaction : Transaction.t) :
  Transaction.memo transaction = NoneMemo ->
  check call transaction = Server.Passed ->
  forall op d,
    op ∈ Transaction.operations transaction -> pays_to op d ->
    muxed d = false -> ~ Server.flagged call d.
Proof.
  unfold Server.__check_memo_required_sync,
    Server.__get_check_memo_required_destinations.
  intros -> H op d Hin Hp Hm.
  pose proof (check_loop call (Transaction.operations transaction) 0 ∅)
    as Hloop.
  destruct (loop 0 (Transaction.operations transaction) ∅) as [ys e].
  simpl in *.
  destruct (check_destinations call ys); try discriminate H.
  destruct e; [discriminate H|].
  apply list_elem_of_lookup in Hin as [k Hk].
  eapply Hloop; [done|done|done|set_solver|done].
Qed.

(** X16: When the check raises AccountRequiresMemoError, the transaction has
    no memo and the error names the first operation, in the order of the
    transaction, whose destination is an account, not a muxed one, whose
    data asks for a memo. *)
Theorem check_memo_required_error call (transaction : Transaction.t)
    (d : string) (j : nat) :
  check call transaction = Server.AccountRequiresMemoError d j ->
  Transaction.memo transaction = NoneMemo /\
  exists op,
    Transaction.operations transaction !! j = Some op /\ pays_to op d /\
    muxed d = false /\ Server.flagged call d /\
    forall k op' d',
      (k < j)%nat -> Transaction.operations transaction !! k = Some op' ->
      pays_to op' d' -> muxed d' = false -> ~ Server.flagged call d'.
Proof.
  unfold Server.__check_memo_required_sync,
    Server.__get_check_memo_required_destinations.
  intros H.
  destruct (Transaction.memo transaction); try discriminate H.
  split; [done|].
  pose proof (check_loop call (Transaction.operations transaction) 0 ∅)
    as Hloop.
  destruct (loop 0 (Transaction.operations transaction) ∅) as [ys e].
  simpl in *.
  destruct (check_destinations call ys) as [|d0 j0| |];
    try discriminate H.
  { destruct e; discriminate H. }
  injection H as -> ->.
  destruct Hloop as (op & _ & Hop & Hp & _ & Hm & Hf & Hfirst).
  rewrite Nat.sub_0_r in *.
  exists op. split_and!; try done.
  intros k op' d' Hk Hop' Hp' Hm'.
  eapply Hfirst; [done|done|done|set_solver|done].
Qed.

Lemma loop_yields ops : forall i D j d,
  (j, d) ∈ (loop i ops D).1 -> exists op, op ∈ ops /\ pays_to op d.
Proof.
  induction ops as [|operation rest IH]; intros i D j d; simpl.
  - intros H. by apply elem_of_nil in H.
  - assert (Hrest : forall D', (j, d) ∈ (loop (S i) rest D').1 ->
      exists op, op ∈ operation :: rest /\ pays_to op d).
    { intros D' H. destruct (IH _ _ _ _ H) as (op & Hin & Hp).
      exists op. split; [by right|done]. }
    destruct (bool_decide_reflect
      (Operation.op_type_code operation
       ∈ Server.memo_required_operation_code PAYMENT ACCOUNT_MERGE
           PATH_PAYMENT_STRICT_RECEIVE PATH_PAYMENT_STRICT_SEND))
      as [Hcode|Hcode]; [|by apply Hrest].
    destruct (Operation.destination operation) as [m|] eqn:Hdest.
    2: { intros H. by apply elem_of_nil in H. }
    destruct (bool_decide (account_id m ∈ D)); [by apply Hrest|].
    specialize (Hrest ({[account_id m]} ∪ D)).
    destruct (loop (S i) rest ({[account_id m]} ∪ D)) as [ys e].
    simpl in *. intros H. apply elem_of_cons in H as [[= -> ->]|H].
    + exists operation. split; [by left|].
      apply pays_to_head. split; [done|]. by exists m.
    + by apply Hrest.
Qed.

Lemma check_destinations_ext call1 call2 ys :
  (forall j d, (j, d) ∈ ys -> muxed d = false -> call1 d = call2 d) ->
  check_destinations call1 ys = check_destinations call2 ys.
Proof.
  induction ys as [|[j d] ys IH]; intros Hagree; [done|].
  simpl. rewrite IH.
  2: { intros j' d' Hin. apply (Hagree j'). by right. }
  destruct (muxed d) eqn:Hm; [done|].
  rewrite (Hagree j d); [done|by left|done].
Qed.

(** X17: The check asks the server about the destinations of the payments,
    path payments and account merges of the transaction, muxed ones
    excepted, and about no other account: two servers that answer alike
    for these accounts get the same outcome. *)
Theorem check_memo_required_lookups call1 call2
    (transaction : Transaction.t) :
  (forall op d,
     op ∈ Transaction.operations transaction -> pays_to op d ->
     muxed d = false -> call1 d = call2 d) ->
  check call1 transaction = check call2 transaction.
Proof.
  intros Hagree.
  unfold Server.__check_memo_required_sync,
    Server.__get_check_memo_required_destinations.
  destruct (Transaction.memo transaction); try done.
  pose proof (loop_yields (Transaction.operations transaction) 0 ∅)
    as Hy.
  destruct (loop 0 (Transaction.operations transaction) ∅) as [ys e].
  simpl in *.
  rewrite (check_destinations_ext call1 call2 ys); [done|].
  intros j d Hin Hm. destruct (Hy j d Hin) as (op & Hop & Hp).
  by eapply Hagree.
Qed.

End CheckFacts.

Lemma check_memo_required_passed_witness :
  Server.__check_memo_required_sync 1 8 2 13 "M" Sample.call_unflagged
    Sample.tx_payments = Server.Passed /\
  forall op d,
    op ∈ Transaction.operations Sample.tx_payments ->
    Server.pays_to 1 8 2 13 op d ->
    String.prefix "M" d = false ->
    ~ Server.flagged Sample.call_unflagged d.
Proof.
  split; [reflexivity|].
  apply (check_memo_required_passed 1 8 2 13 "M" Sample.call_unflagged
           Sample.tx_payments); reflexivity.
Defined.

Lemma check_memo_required_error_witness :
  Transaction.memo Sample.tx_payments = NoneMemo /\
  exists op,
    Transaction.operations Sample.tx_payments !! 3%nat = Some op /\
    Server.pays_to 1 8 2 13 op "GD" /\
    String.prefix "M" "GD" = false /\ Server.flagged Sample.call "GD" /\
    forall k op' d',
      (k < 3)%nat ->
      Transaction.operations Sample.tx_payments !! k = Some op' ->
      Server.pays_to 1 8 2 13 op' d' -> String.prefix "M" d' = false ->
      ~ Server.flagged Sample.call d'.
Proof.
  apply (check_memo_required_error 1 8 2 13 "M" Sample.call
           Sample.tx_payments "GD" 3).
  reflexivity.
Defined.

Lemma check_memo_required_lookups_witness :
  Server.__check_memo_required_sync 1 8 2 13 "M" Sample.call
    Sample.tx_payments
  = Server.__check_memo_required_sync 1 8 2 13 "M" Sample.call_other
      Sample.tx_payments.
Proof.
  apply (check_memo_required_lookups 1 8 2 13 "M" Sample.call
           Sample.call_other Sample.tx_payments).
  intros op d Hin [Hkind (m & Hm & <-)] _.
  simpl in Hin. rewrite !elem_of_cons, elem_of_nil in Hin.
  destruct Hin as [->|[->|[->|[->|[]]]]]; simpl in Hm;
    injection Hm as <-; try reflexivity.
  exfalso. unfold Server.memo_required in Hkind. simpl in Hkind. lia.
Defined.

(** * The exception classes *)

Section ExceptionFacts.
Import Exceptions.

(** X19: The classes that [exceptions.py] defines are the subclasses of
    [SdkError]: [except SdkError] catches each of them and no built-in
    exception. *)
Theorem Exceptions_derive_from_SdkError (c : cls) :
  issubclass c SdkError = true <-> defined_here c = true.
Proof. by destruct c. Qed.

End ExceptionFacts.
